(** * bolted: session validation, order processing and cart store

    A shallow embedding of the three cooperating pieces of the storefront
    core:

    - [SessionValidation]: src/services/sessionValidationService.js
      (permission cache with a five minute time-to-live, the permission
      matrix, cache invalidation);
    - [BusinessLogic]: src/services/businessLogicService.js
      (product validation and creation, order processing);
    - [CartStore]: src/store/cartStore.js
      (the zustand cart store: subscription handle, mutations, totals).

    JavaScript code that throws is modelled in a state-and-exception monad:
    a computation maps a state to an [outcome] and the state it leaves
    behind.  A thrown error keeps every state change made before the throw,
    as it does in JavaScript. *)

From Stdlib Require Import ZArith QArith Ascii String List Bool Lia.
From stdpp Require Import gmap strings pretty.

Open Scope string_scope.
Open Scope Z_scope.

(** ** Outcomes and the state-and-exception monad *)

Module Js.

(** The result of running a JavaScript function body: it returns a value
    or throws [new Error(msg)]. *)
Inductive outcome (A : Type) : Type :=
| Returns (a : A)
| Throws (msg : string).
Arguments Returns {A} a.
Arguments Throws {A} msg.

Definition M (S A : Type) : Type := S -> outcome A * S.

Definition ret {S A} (a : A) : M S A := fun s => (Returns a, s).
Definition throw {S A} (msg : string) : M S A := fun s => (Throws msg, s).

Definition bind {S A B} (c : M S A) (k : A -> M S B) : M S B :=
  fun s =>
    match c s with
    | (Returns a, s') => k a s'
    | (Throws msg, s') => (Throws msg, s')
    end.

(** [try { c } catch (error) { h error.message }] *)
Definition try_catch {S A} (c : M S A) (h : string -> M S A) : M S A :=
  fun s =>
    match c s with
    | (Returns a, s') => (Returns a, s')
    | (Throws msg, s') => h msg s'
    end.

Definition gets {S A} (f : S -> A) : M S A := fun s => (Returns (f s), s).
Definition modify {S} (f : S -> S) : M S unit := fun s => (Returns tt, f s).

(** [for (const x of xs) { body x }] *)
Fixpoint for_of {S A} (xs : list A) (body : A -> M S unit) : M S unit :=
  match xs with
  | [] => ret tt
  | x :: rest => bind (body x) (fun _ => for_of rest body)
  end.

Definition is_returns {A} (o : outcome A) : bool :=
  match o with Returns _ => true | Throws _ => false end.

(** JavaScript truthiness of a string and of an integer-valued number. *)
Definition truthy_string (s : string) : bool :=
  match s with EmptyString => false | _ => true end.
Definition truthy_Z (z : Z) : bool := negb (Z.eqb z 0).

(** [true] when the character [c] does not occur in [s]. *)
Fixpoint char_free (c : Ascii.ascii) (s : string) : bool :=
  match s with
  | EmptyString => true
  | String a rest => negb (Ascii.eqb a c) && char_free c rest
  end.

End Js.

Import Js.

Notation "'let*' x ':=' c 'in' k" := (bind c (fun x => k))
  (at level 10, x name, c at level 100, k at level 200, only parsing).
Notation "'exec' c 'in' k" := (bind c (fun _ => k))
  (at level 10, c at level 100, k at level 200, only parsing).

(** ** sessionValidationService.js *)

Module SessionValidation.

(** A document of the [users] collection, as far as the service reads it. *)
Record UserRecord : Type := mkUser {
  role : string;
  suspended : bool;
  deactivated : bool
}.

(** A value of [sessionCache]. *)
Record CacheEntry : Type := mkEntry {
  hasPermission : bool;
  userData : UserRecord;
  timestamp : Z
}.

(** The service instance together with the collaborators it reads:
    [auth.currentUser] (its uid), the [users] collection, and the clock
    behind [Date.now()].  [reads] counts the [getDoc] calls on [users];
    [latency] is the time the next such read takes. *)
Record World : Type := mkWorld {
  currentUser : option string;
  users : gmap string UserRecord;
  sessionCache : gmap string CacheEntry;
  now : Z;
  latency : Z;
  reads : nat
}.

Definition set_cache (c : gmap string CacheEntry) (w : World) : World :=
  mkWorld (currentUser w) (users w) c (now w) (latency w) (reads w).

Definition set_now (t : Z) (w : World) : World :=
  mkWorld (currentUser w) (users w) (sessionCache w) t (latency w) (reads w).

(** [this.cacheTimeout = 5 * 60 * 1000] *)
Definition cacheTimeout : Z := 5 * 60 * 1000.

(** [await getDoc(doc(db, 'users', uid))]: one read of the system of
    record; the clock advances while the call is suspended. *)
Definition getDoc_users (uid : string) : M World (option UserRecord) :=
  fun w =>
    (Returns (users w !! uid),
     mkWorld (currentUser w) (users w) (sessionCache w)
             (now w + latency w) (latency w) (S (reads w))).

Definition cacheKey (uid requiredRole : string) : string :=
  uid ++ "_" ++ requiredRole.

(** [cached && (Date.now() - cached.timestamp) < this.cacheTimeout] *)
Definition cache_hit (w : World) (key : string) : option CacheEntry :=
  match sessionCache w !! key with
  | Some cached =>
      if now w - timestamp cached <? cacheTimeout then Some cached else None
  | None => None
  end.

Definition validateUserRole (requiredRole : string) : M World UserRecord :=
  fun w =>
    match currentUser w with
    | None => throw "User not authenticated" w
    | Some uid =>
        let key := cacheKey uid requiredRole in
        match cache_hit w key with
        | Some cached =>
            if hasPermission cached then ret (userData cached) w
            else throw "Insufficient permissions" w
        | None =>
            (let* userDoc := getDoc_users uid in
             match userDoc with
             | None => throw "User document not found"
             | Some data =>
                 if suspended data then throw "User account suspended"
                 else if deactivated data then throw "User account deactivated"
                 else
                   let has := String.eqb (role data) requiredRole in
                   exec modify (fun w' =>
                     set_cache (<[key := mkEntry has data (now w')]>
                                  (sessionCache w')) w') in
                   if has then ret data
                   else throw ("Access denied. Required role: " ++ requiredRole
                               ++ ", current role: " ++ role data)
             end) w
        end
    end.

(** The literal permission matrix of [checkPermission]:
    role, then resource, then the allowed actions. *)
Definition permissions : list (string * list (string * list string)) :=
  [ ("admin",
      [ ("products", ["create"; "read"; "update"; "delete"]);
        ("orders", ["read"; "update"; "delete"]);
        ("users", ["read"; "update"]);
        ("analytics", ["read"]);
        ("settings", ["read"; "update"]) ]);
    ("editor",
      [ ("products", ["create"; "read"; "update"]);
        ("orders", ["read"; "update"]);
        ("analytics", ["read"]) ]);
    ("support",
      [ ("orders", ["read"; "update"]);
        ("users", ["read"]) ]);
    ("customer",
      [ ("orders", ["read"]);
        ("profile", ["read"; "update"]) ]) ].

Fixpoint assoc {A} (k : string) (l : list (string * A)) : option A :=
  match l with
  | [] => None
  | (k', v) :: rest => if String.eqb k' k then Some v else assoc k rest
  end.

(** [(permissions[role] || {})[resource] || []]; an absent [resource]
    argument is the default [null], which names no resource.  Roles and
    resources are looked up among the keys the literal spells out. *)
Definition matrix_actions (r : string) (resource : option string) : list string :=
  match assoc r permissions with
  | None => []
  | Some userPermissions =>
      match resource with
      | None => []
      | Some res => default [] (assoc res userPermissions)
      end
  end.

(** [resourcePermissions.includes(action)] *)
Definition includes (l : list string) (a : string) : bool :=
  existsb (String.eqb a) l.

(** [checkPermission(action, resource = null)]; the role check is the call
    [this.validateUserRole()], whose parameter defaults to ['admin']. *)
Definition checkPermission (action : string) (resource : option string)
  : M World bool :=
  let* data := validateUserRole "admin" in
  if includes (matrix_actions (role data) resource) action then ret true
  else throw ("Permission denied: " ++ role data ++ " cannot " ++ action
              ++ " " ++ default "null" resource).

(** The loop of [clearCache]: visit every key of the map and delete those
    that start with [userId]. *)
Fixpoint delete_matching (userId : string) (keys : list string)
    (c : gmap string CacheEntry) : gmap string CacheEntry :=
  match keys with
  | [] => c
  | key :: rest =>
      delete_matching userId rest
        (if String.prefix userId key then delete key c else c)
  end.

(** [clearCache(userId = null)]; [if (userId)] is false for [null] and
    for the empty string. *)
Definition clearCache (userId : option string) (w : World) : World :=
  match userId with
  | Some u =>
      if truthy_string u
      then set_cache
             (delete_matching u (map fst (map_to_list (sessionCache w)))
                              (sessionCache w)) w
      else set_cache ∅ w
  | None => set_cache ∅ w
  end.

(** *** Histories of the service

    What can happen to the service between two moments: one of its three
    methods is called, or its surroundings change (another user signs in or
    the user signs out, the user documents change, the clock moves). *)
Inductive session_action : Type :=
| CallValidateUserRole (requiredRole : string)
| CallCheckPermission (action : string) (resource : option string)
| CallClearCache (userId : option string)
| Surroundings (user : option string) (docs : gmap string UserRecord)
               (time delay : Z).

Definition session_perform (a : session_action) (w : World) : World :=
  match a with
  | CallValidateUserRole r => snd (validateUserRole r w)
  | CallCheckPermission action resource => snd (checkPermission action resource w)
  | CallClearCache u => clearCache u w
  | Surroundings u docs t d => mkWorld u docs (sessionCache w) t d (reads w)
  end.

(** A uid without an underscore, the separator of cache keys. *)
Definition plain_uid (u : option string) : bool :=
  from_option (char_free "_"%char) true u.

Definition plain_action (a : session_action) : bool :=
  match a with
  | Surroundings u _ _ _ => plain_uid u
  | _ => true
  end.

(** The worlds the service reaches from an empty cache when every uid that
    signs in is plain. *)
Inductive session_reachable : World -> Prop :=
| session_start u docs t d :
    plain_uid u = true -> session_reachable (mkWorld u docs ∅ t d 0)
| session_step a w :
    session_reachable w -> plain_action a = true ->
    session_reachable (session_perform a w).

(** Every cached verdict was computed for the subject and role its key
    spells. *)
Definition cache_sound (w : World) : Prop :=
  forall key e,
    sessionCache w !! key = Some e ->
    exists uid r,
      key = cacheKey uid r
      /\ char_free "_"%char uid = true
      /\ hasPermission e = String.eqb (role (userData e)) r.

End SessionValidation.

(** ** businessLogicService.js *)

Module BusinessLogic.

Import SessionValidation.

(** The [productData] argument of [createProduct]; a field that the caller
    left out is [None].  Numbers are exact: a price is a rational, a
    quantity an integer. *)
Record ProductData : Type := mkProductData {
  pd_name : option string;
  pd_description : option string;
  pd_price : option Q;
  pd_category : option string;
  pd_quantityAvailable : option Z
}.

(** A document of the [products] collection:
    [{ ...productData, createdAt, updatedAt, active, featured, rating,
    reviewCount }]. *)
Record ProductDoc : Type := mkProductDoc {
  data : ProductData;
  createdAt : Z;
  updatedAt : Z;
  active : bool;
  featured : bool;
  rating : Z;
  reviewCount : Z
}.

(** An entry of [orderData.items]: a cart item, which carries the product's
    id, the ordered quantity and the product fields it was created from,
    among them its copy of [quantityAvailable]. *)
Record Item : Type := mkItem {
  item_id : string;
  item_quantity : Z;
  item_quantityAvailable : Z
}.

Record Shipping : Type := mkShipping { address : string }.

(** [orderData]; an absent [items] is the empty list (both are rejected
    with the same error before the list is read). *)
Record OrderData : Type := mkOrderData {
  items : list Item;
  shipping : option Shipping
}.

(** [{ ...orderData, userId, orderNumber, status, createdAt }] *)
Record Order : Type := mkOrder {
  order_data : OrderData;
  userId : string;
  orderNumber : string;
  status : string;
  order_createdAt : Z
}.

(** [{ id: orderRef.id, ...order }].  The spread comes last, so an [id]
    that the order data themselves carried would take the place of the
    generated one in the returned object; [OrderData] has no such field,
    so here the returned [id] is always the generated one. *)
Record OrderResult : Type := mkOrderResult {
  id : string;
  order : Order
}.

(** The system of record and the two outbound collaborators: the
    confirmation mails that were sent and the products pushed to the
    search index. *)
Record Db : Type := mkDb {
  db_users : gmap string UserRecord;
  products : gmap string ProductDoc;
  orders : gmap string Order;
  confirmations : list Order;
  searchIndex : list string
}.

Definition set_products (p : gmap string ProductDoc) (db : Db) : Db :=
  mkDb (db_users db) p (orders db) (confirmations db) (searchIndex db).
Definition set_orders (o : gmap string Order) (db : Db) : Db :=
  mkDb (db_users db) (products db) o (confirmations db) (searchIndex db).
Definition add_confirmation (o : Order) (db : Db) : Db :=
  mkDb (db_users db) (products db) (orders db) (confirmations db ++ [o])
       (searchIndex db).
Definition add_indexed (pid : string) (db : Db) : Db :=
  mkDb (db_users db) (products db) (orders db) (confirmations db)
       (searchIndex db ++ [pid]).

(** What one call receives from outside the service: the clock, the
    document id the store generates, the random suffix of the order
    number, and for each external call whether it rejects ([Some msg]).
    [checkAvailability] is [inventoryService.checkAvailability], whose
    module is not part of the sources; it answers from the current
    product records. *)
Record Env : Type := mkEnv {
  env_now : Z;
  env_docId : string;
  env_random : string;
  addDocFails : option string;
  initializeInventoryFails : option string;
  indexProductFails : option string;
  commitFails : option string;
  sendOrderConfirmationFails : option string;
  checkAvailability : gmap string ProductDoc -> string -> Z
}.

(** *** Product validation and creation *)

(** [!productData[field]] for the five names of [required]. *)
Definition field_missing (p : ProductData) (field : string) : bool :=
  if String.eqb field "name" then negb (from_option truthy_string false (pd_name p))
  else if String.eqb field "description"
    then negb (from_option truthy_string false (pd_description p))
  else if String.eqb field "price"
    then negb (from_option (fun q => negb (Qeq_bool q 0)) false (pd_price p))
  else if String.eqb field "category"
    then negb (from_option truthy_string false (pd_category p))
  else if String.eqb field "quantityAvailable"
    then negb (from_option truthy_Z false (pd_quantityAvailable p))
  else true.

Definition required : list string :=
  ["name"; "description"; "price"; "category"; "quantityAvailable"].

Fixpoint check_required (p : ProductData) (fields : list string)
  : outcome unit :=
  match fields with
  | [] => Returns tt
  | field :: rest =>
      if field_missing p field
      then Throws ("Missing required field: " ++ field)
      else check_required p rest
  end.

(** [productData.price <= 0] and [productData.quantityAvailable < 0]; a
    comparison with an absent field is false. *)
Definition validateProductData (p : ProductData) : outcome unit :=
  match check_required p required with
  | Throws msg => Throws msg
  | Returns _ =>
      if from_option (fun q => Qle_bool q 0) false (pd_price p)
      then Throws "Price must be greater than 0"
      else if from_option (fun q => Z.ltb q 0) false (pd_quantityAvailable p)
      then Throws "Quantity cannot be negative"
      else Returns tt
  end.

Definition lift {S A} (o : outcome A) : M S A := fun s => (o, s).

Definition reject_if {S} (failure : option string) : M S unit :=
  match failure with
  | Some msg => throw msg
  | None => ret tt
  end.

(** [syncProductToSearch]: the call is wrapped in its own try/catch, which
    logs and swallows the error. *)
Definition syncProductToSearch (env : Env) (productId : string) : M Db unit :=
  try_catch
    (exec reject_if (indexProductFails env) in
     modify (add_indexed productId))
    (fun _ => ret tt).

(** [createProduct(productData, userRole)]; it returns
    [{ id: docRef.id, ...product }], here the generated id with the product.
    [ProductData] has no [id] field of its own, which in the returned object
    would take the place of the generated one. *)
Definition createProduct (env : Env) (productData : ProductData)
    (userRole : string) : M Db (string * ProductDoc) :=
  if negb (String.eqb userRole "admin")
  then throw "Insufficient permissions to create products"
  else
    exec lift (validateProductData productData) in
    let product :=
      mkProductDoc productData (env_now env) (env_now env) true false 0 0 in
    try_catch
      (exec reject_if (addDocFails env) in
       exec modify (fun db =>
              set_products (<[env_docId env := product]> (products db)) db) in
       exec reject_if (initializeInventoryFails env) in
       exec syncProductToSearch env (env_docId env) in
       ret (env_docId env, product))
      (fun msg => throw ("Failed to create product: " ++ msg)).

(** [validateUserPermissions(userRole, requiredRole)] *)
Definition validateUserPermissions {S} (userRole requiredRole : string)
  : M S unit :=
  if negb (String.eqb userRole requiredRole)
  then throw ("Access denied. Required role: " ++ requiredRole)
  else ret tt.

(** [{ ...old, ...updates }] on the fields of a product: a field that
    [updates] gives replaces the stored one. *)
Definition merge_fields (updates old : ProductData) : ProductData :=
  mkProductData
    (from_option Some (pd_name old) (pd_name updates))
    (from_option Some (pd_description old) (pd_description updates))
    (from_option Some (pd_price old) (pd_price updates))
    (from_option Some (pd_category old) (pd_category updates))
    (from_option Some (pd_quantityAvailable old) (pd_quantityAvailable updates)).

(** [await updateDoc(doc(db, 'products', productId), updateData)] with
    [updateData = { ...updates, updatedAt }]: the given fields are merged
    into the document; the call rejects when the document does not exist,
    or for a reason of its own ([failure]). *)
Definition updateDoc_product (failure : option string) (productId : string)
    (updates : ProductData) (stamp : Z) : M Db unit :=
  fun db =>
    match failure with
    | Some msg => (Throws msg, db)
    | None =>
        match products db !! productId with
        | Some p =>
            (Returns tt,
             set_products
               (<[productId :=
                    mkProductDoc (merge_fields updates (data p)) (createdAt p)
                                 stamp (active p) (featured p) (rating p)
                                 (reviewCount p)]> (products db)) db)
        | None => (Throws "No document to update", db)
        end
    end.

(** [updateProduct(productId, updates, userRole)]; it returns
    [updateData], the updates with their time stamp. *)
Definition updateProduct (env : Env) (updateDocFails : option string)
    (productId : string) (updates : ProductData) (userRole : string)
  : M Db (ProductData * Z) :=
  exec validateUserPermissions userRole "admin" in
  try_catch
    (exec updateDoc_product updateDocFails productId updates (env_now env) in
     exec syncProductToSearch env productId in
     ret (updates, env_now env))
    (fun msg => throw ("Failed to update product: " ++ msg)).

(** The same surroundings with another fate for the search index call. *)
Definition with_indexProductFails (f : option string) (env : Env) : Env :=
  mkEnv (env_now env) (env_docId env) (env_random env) (addDocFails env)
        (initializeInventoryFails env) f (commitFails env)
        (sendOrderConfirmationFails env) (checkAvailability env).

(** *** Order processing *)

Definition validateActiveSession (uid : string) : M Db UserRecord :=
  let* userDoc := gets (fun db => db_users db !! uid) in
  match userDoc with
  | None => throw "Invalid user session"
  | Some userData =>
      if suspended userData then throw "User account suspended"
      else ret userData
  end.

Definition validateOrderData (orderData : OrderData) : M Db unit :=
  match items orderData with
  | [] => throw "Order must contain at least one item"
  | _ =>
      if negb (from_option (fun s => truthy_string (address s)) false
                           (shipping orderData))
      then throw "Shipping address is required"
      else
        for_of (items orderData) (fun item =>
          let* productDoc := gets (fun db => products db !! item_id item) in
          match productDoc with
          | None => throw ("Product " ++ item_id item ++ " not found")
          | Some product =>
              if from_option (fun q => Z.ltb q (item_quantity item)) false
                             (pd_quantityAvailable (data product))
              then throw ("Insufficient stock for "
                          ++ default "undefined" (pd_name (data product)))
              else ret tt
          end)
  end.

Definition validateInventoryAvailability (env : Env) (its : list Item)
  : M Db unit :=
  for_of its (fun item =>
    let* available :=
      gets (fun db => checkAvailability env (products db) (item_id item)) in
    if Z.ltb available (item_quantity item)
    then throw ("Insufficient inventory for product " ++ item_id item)
    else ret tt).

(** [`ORD-${Date.now()}-${Math.random().toString(36).substr(2, 9)}`] *)
Definition generateOrderNumber (env : Env) : string :=
  "ORD-" ++ pretty (env_now env) ++ "-" ++ env_random env.

(** The writes queued on a [writeBatch]. *)
Inductive write : Type :=
| SetOrder (orderId : string) (o : Order)
| UpdateQuantityAvailable (productId : string) (q : Z).

Definition set_quantityAvailable (q : Z) (p : ProductDoc) : ProductDoc :=
  mkProductDoc
    (mkProductData (pd_name (data p)) (pd_description (data p))
                   (pd_price (data p)) (pd_category (data p)) (Some q))
    (createdAt p) (updatedAt p) (active p) (featured p) (rating p)
    (reviewCount p).

(** One write of a batch; [update] of a document that does not exist
    fails. *)
Definition apply_write (w : write) (db : Db) : option Db :=
  match w with
  | SetOrder oid o => Some (set_orders (<[oid := o]> (orders db)) db)
  | UpdateQuantityAvailable pid q =>
      match products db !! pid with
      | Some p =>
          Some (set_products (<[pid := set_quantityAvailable q p]> (products db)) db)
      | None => None
      end
  end.

Fixpoint apply_writes (ws : list write) (db : Db) : option Db :=
  match ws with
  | [] => Some db
  | w :: rest =>
      match apply_write w db with
      | Some db' => apply_writes rest db'
      | None => None
      end
  end.

(** [await batch.commit()]: every write applies, in the order queued, or
    none does. *)
Definition commit (env : Env) (batch : list write) : M Db unit :=
  fun db =>
    match commitFails env with
    | Some msg => (Throws msg, db)
    | None =>
        match apply_writes batch db with
        | Some db' => (Returns tt, db')
        | None => (Throws "No document to update", db)
        end
    end.

(** [await emailService.sendOrderConfirmation(order)] *)
Definition sendOrderConfirmation (env : Env) (o : Order) : M Db unit :=
  exec reject_if (sendOrderConfirmationFails env) in
  modify (add_confirmation o).

(** The three awaited checks that open [processOrder]. *)
Definition processOrder_checks (env : Env) (orderData : OrderData)
    (uid : string) : M Db unit :=
  exec validateActiveSession uid in
  exec validateOrderData orderData in
  validateInventoryAvailability env (items orderData).

Definition order_of (env : Env) (orderData : OrderData) (uid : string) : Order :=
  mkOrder orderData uid (generateOrderNumber env) "processing" (env_now env).

Definition batch_of (env : Env) (orderData : OrderData) (uid : string)
  : list write :=
  SetOrder (env_docId env) (order_of env orderData uid)
  :: map (fun item =>
            UpdateQuantityAvailable (item_id item)
              (item_quantityAvailable item - item_quantity item))
         (items orderData).

(** The [try] block of [processOrder] with its [catch]. *)
Definition processOrder_write (env : Env) (orderData : OrderData)
    (uid : string) : M Db OrderResult :=
  try_catch
    (exec commit env (batch_of env orderData uid) in
     exec sendOrderConfirmation env (order_of env orderData uid) in
     ret (mkOrderResult (env_docId env) (order_of env orderData uid)))
    (fun msg => throw ("Failed to process order: " ++ msg)).

Definition processOrder (env : Env) (orderData : OrderData) (uid : string)
  : M Db OrderResult :=
  exec processOrder_checks env orderData uid in
  processOrder_write env orderData uid.



(** The stored [quantityAvailable] of a product. *)
Definition stock_of (pid : string) (db : Db) : option Z :=
  match products db !! pid with
  | Some p => pd_quantityAvailable (data p)
  | None => None
  end.

(** *** Calls in flight

    The service runs on one thread; a call gives up control only at an
    [await].  A call of [processOrder] is followed through two stretches:
    the checks (which only read) and the batch with what follows it.  A
    schedule names, step by step, which call advances. *)
Inductive task : Type :=
| Started
| Checked
| Finished (result : outcome OrderResult).

Record call : Type := mkCall {
  call_env : Env;
  call_order : OrderData;
  call_uid : string;
  call_task : task
}.

Definition with_task (c : call) (t : task) : call :=
  mkCall (call_env c) (call_order c) (call_uid c) t.

Definition step_call (c : call) (db : Db) : call * Db :=
  match call_task c with
  | Started =>
      match processOrder_checks (call_env c) (call_order c) (call_uid c) db with
      | (Returns _, db') => (with_task c Checked, db')
      | (Throws msg, db') => (with_task c (Finished (Throws msg)), db')
      end
  | Checked =>
      match processOrder_write (call_env c) (call_order c) (call_uid c) db with
      | (r, db') => (with_task c (Finished r), db')
      end
  | Finished _ => (c, db)
  end.

(** Two calls in flight; [true] in the schedule advances the first. *)
Fixpoint run_schedule (schedule : list bool) (a b : call) (db : Db)
  : call * call * Db :=
  match schedule with
  | [] => (a, b, db)
  | true :: rest =>
      let '(a', db') := step_call a db in run_schedule rest a' b db'
  | false :: rest =>
      let '(b', db') := step_call b db in run_schedule rest a b' db'
  end.

End BusinessLogic.

(** ** cartStore.js *)

Module CartStore.

(** The arithmetic of JavaScript numbers that the store uses: literals,
    [+], [*], [<=] and [>].  The store is written against this interface,
    so what is proved of it holds for exact and for rounded arithmetic
    alike. *)
Class JsNumber (num : Type) : Type := {
  lit : Q -> num;
  nadd : num -> num -> num;
  nmul : num -> num -> num;
  nleb : num -> num -> bool;
  ngtb : num -> num -> bool
}.

(** Exact rational arithmetic. *)
#[export] Instance Q_number : JsNumber Q := {
  lit := fun q => q;
  nadd := Qplus;
  nmul := Qmult;
  nleb := Qle_bool;
  ngtb := fun a b => negb (Qle_bool a b)
}.

Section Store.

Context {num : Type} `{JsNumber num}.

(** The state of the system of record, which the store never sees but
    through the calls below. *)
Context {Server : Type}.

Record CartItem : Type := mkCartItem {
  id : string;
  name : string;
  price : num;
  quantity : num
}.

(** The zustand state: [cart], [loading], [error] and [unsubscribe], the
    cancellation function of the listener the store opened last (named
    by the listener it cancels). *)
Record State : Type := mkState {
  cart : list CartItem;
  loading : bool;
  error : option string;
  unsubscribe : option nat
}.

(** What happens to snapshot listeners: one is opened on the cart document
    of a user, or the cancellation function of one is called. *)
Inductive event : Type :=
| Opened (listener : nat) (key : string)
| Cancelled (listener : nat).

(** The store and what surrounds it: the signed-in user of the auth
    store, the snapshot listeners that are live (each with the key of
    the cart document it watches), the number the next listener gets,
    and the log of listener events, oldest first. *)
Record World : Type := mkWorld {
  store : State;
  currentUser : option string;
  listeners : gmap nat string;
  nextListener : nat;
  log : list event;
  server : Server
}.

(** A cart document: [None] when [doc.exists()] is false, otherwise its
    [items] field, which may be missing. *)
Definition CartDoc : Type := option (option (list CartItem)).

(** The awaited calls of the store.  The cart methods are called on
    [businessLogicService] and [validateActiveSession] on
    [sessionValidationService]; a call of a method that the object does
    not define throws, which is the [Throws] outcome. *)
Record Services : Type := mkServices {
  svc_addToCart : string -> CartItem -> num -> Server
                  -> outcome (list CartItem) * Server;
  svc_updateCartQuantity : string -> string -> num -> Server
                           -> outcome (list CartItem) * Server;
  svc_removeFromCart : string -> string -> Server
                       -> outcome (list CartItem) * Server;
  svc_clearCart : string -> Server -> outcome unit * Server;
  svc_validateActiveSession : string -> Server -> outcome unit * Server;
  svc_getCartDoc : string -> Server -> outcome CartDoc * Server
}.

Variable svc : Services.

(** [set(partial)] merges into the state. *)
Definition set_store (f : State -> State) (w : World) : World :=
  mkWorld (f (store w)) (currentUser w) (listeners w) (nextListener w)
          (log w) (server w).
Definition set_server (sv : Server) (w : World) : World :=
  mkWorld (store w) (currentUser w) (listeners w) (nextListener w)
          (log w) sv.
Definition set_user (u : option string) (w : World) : World :=
  mkWorld (store w) u (listeners w) (nextListener w) (log w) (server w).

Definition set_cart (c : list CartItem) (s : State) : State :=
  mkState c (loading s) (error s) (unsubscribe s).
Definition set_loading (b : bool) (s : State) : State :=
  mkState (cart s) b (error s) (unsubscribe s).
Definition set_error (e : option string) (s : State) : State :=
  mkState (cart s) (loading s) e (unsubscribe s).
Definition set_unsubscribe (u : option nat) (s : State) : State :=
  mkState (cart s) (loading s) (error s) u.

(** Calling the cancellation function of listener [i]. *)
Definition cancel (i : nat) (w : World) : World :=
  mkWorld (store w) (currentUser w) (delete i (listeners w))
          (nextListener w) (log w ++ [Cancelled i]) (server w).

(** [onSnapshot(doc(db, "carts", uid), ...)] opens a listener and
    returns its cancellation function. *)
Definition onSnapshot (uid : string) (w : World) : nat * World :=
  (nextListener w,
   mkWorld (store w) (currentUser w)
           (<[nextListener w := uid]> (listeners w))
           (S (nextListener w)) (log w ++ [Opened (nextListener w) uid])
           (server w)).

Definition subscribeToCart (w : World) : World :=
  match currentUser w with
  | None => w
  | Some uid =>
      let w1 :=
        match unsubscribe (store w) with
        | Some currentUnsub => cancel currentUnsub w
        | None => w
        end in
      let '(unsub, w2) := onSnapshot uid w1 in
      set_store (set_unsubscribe (Some unsub)) w2
  end.

Definition unsubscribeFromCart (w : World) : World :=
  match unsubscribe (store w) with
  | Some unsub => set_store (set_unsubscribe None) (cancel unsub w)
  | None => w
  end.

(** The two callbacks handed to [onSnapshot]. *)
Definition on_snapshot (d : CartDoc) (w : World) : World :=
  match d with
  | Some cartData =>
      set_store (fun s =>
        set_error None (set_loading false (set_cart (default [] cartData) s))) w
  | None => set_store (fun s => set_loading false (set_cart [] s)) w
  end.

Definition on_error (msg : string) (w : World) : World :=
  set_store (fun s => set_loading false (set_error (Some msg) s)) w.

(** [loadCart] up to its first [await]. *)
Definition loadCart_begin (w : World) : World :=
  match currentUser w with
  | None => w
  | Some _ => set_store (set_loading true) w
  end.

(** [loadCart] from the point where both awaited calls have settled,
    [r] being what they gave: the cart document, or the error of the
    one that rejected. *)
Definition loadCart_resume (r : outcome CartDoc) (w : World) : World :=
  match r with
  | Returns cartDoc =>
      let w1 :=
        match cartDoc with
        | Some d =>
            set_store (fun s => set_loading false (set_cart (default [] d) s)) w
        | None => set_store (set_loading false) w
        end in
      subscribeToCart (subscribeToCart (subscribeToCart w1))
  | Throws msg =>
      set_store (fun s => set_loading false (set_error (Some msg) s)) w
  end.

(** The two awaited calls of [loadCart], one after the other. *)
Definition loadCart_await (uid : string) (sv : Server)
  : outcome CartDoc * Server :=
  match svc_validateActiveSession svc uid sv with
  | (Returns _, sv1) => svc_getCartDoc svc uid sv1
  | (Throws msg, sv1) => (Throws msg, sv1)
  end.

Definition loadCart (w : World) : World :=
  match currentUser w with
  | None => w
  | Some uid =>
      let w1 := loadCart_begin w in
      let '(r, sv) := loadCart_await uid (server w1) in
      loadCart_resume r (set_server sv w1)
  end.

Definition removeFromCart (i : string) (w : World) : World :=
  match currentUser w with
  | None => w
  | Some uid =>
      match svc_removeFromCart svc uid i (server w) with
      | (Returns updatedCart, sv) =>
          set_store (set_cart updatedCart) (set_server sv w)
      | (Throws msg, sv) =>
          set_store (set_error (Some msg)) (set_server sv w)
      end
  end.

Definition updateQuantity (i : string) (qty : num) (w : World) : World :=
  match currentUser w with
  | None => w
  | Some uid =>
      if nleb qty (lit 0) then removeFromCart i w
      else
        match svc_updateCartQuantity svc uid i qty (server w) with
        | (Returns updatedCart, sv) =>
            set_store (set_cart updatedCart) (set_server sv w)
        | (Throws msg, sv) =>
            set_store (set_error (Some msg)) (set_server sv w)
        end
  end.

Definition addToCart (product : CartItem) (qty : num) (w : World) : World :=
  match currentUser w with
  | None => w
  | Some uid =>
      match svc_addToCart svc uid product qty (server w) with
      | (Returns updatedCart, sv) =>
          set_store (set_cart updatedCart) (set_server sv w)
      | (Throws msg, sv) =>
          set_store (set_error (Some msg)) (set_server sv w)
      end
  end.

Definition clearCart (w : World) : World :=
  match currentUser w with
  | None => w
  | Some uid =>
      match svc_clearCart svc uid (server w) with
      | (Returns _, sv) => set_store (set_cart []) (set_server sv w)
      | (Throws msg, sv) =>
          set_store (set_error (Some msg)) (set_server sv w)
      end
  end.

(** [addToCartLocal(product, qty = 1)]: the legacy mutation that works on
    the local state alone. *)
Definition addToCartLocal (product : CartItem) (qty : num) (w : World) : World :=
  set_store (fun state =>
    match find (fun item => String.eqb (id item) (id product)) (cart state) with
    | Some _ =>
        set_cart
          (map (fun item =>
                  if String.eqb (id item) (id product)
                  then mkCartItem (id item) (name item) (price item)
                                  (nadd (quantity item) qty)
                  else item) (cart state)) state
    | None =>
        set_cart (cart state
                  ++ [mkCartItem (id product) (name product) (price product) qty])
                 state
    end) w.

Definition clearError (w : World) : World := set_store (set_error None) w.

(** *** Derived values *)

Definition getItemQuantity (i : string) : M World num :=
  gets (fun w =>
    match find (fun item => String.eqb (id item) i) (cart (store w)) with
    | Some item => quantity item
    | None => lit 0
    end).

Definition getTotalItems : M World num :=
  gets (fun w =>
    fold_left (fun total item => nadd total (quantity item))
              (cart (store w)) (lit 0)).

Definition get_cart : M World (list CartItem) := gets (fun w => cart (store w)).

Definition getTotalPrice : M World num :=
  let* c := get_cart in
  ret (fold_left (fun total item => nadd total (nmul (price item) (quantity item)))
                 c (lit 0)).

Definition getSubtotal : M World num := getTotalPrice.

Definition getTax : M World num :=
  let* total := getTotalPrice in
  ret (nmul total (lit (8 # 100))).

Definition getShipping : M World num :=
  let* total := getTotalPrice in
  ret (if ngtb total (lit 500) then lit 0 else lit 50).

Definition getGrandTotal : M World num :=
  let* subtotal := getSubtotal in
  let* tax := getTax in
  let* shipping_fee := getShipping in
  ret (nadd (nadd subtotal tax) shipping_fee).

(** *** What can happen to the store

    Every stretch of store code that runs without giving up control is
    one action; whatever order the event loop runs them in is a list of
    actions. *)
Inductive action : Type :=
| SubscribeToCart
| UnsubscribeFromCart
| LoadCartBegin
| LoadCartResume (r : outcome CartDoc)
| Snapshot (listener : nat) (d : CartDoc)
| ListenerError (listener : nat) (msg : string)
| AddToCart (product : CartItem) (qty : num)
| UpdateQuantity (i : string) (qty : num)
| RemoveFromCart (i : string)
| ClearCart
| AuthChange (u : option string)
| ServerChange (sv : Server).

Definition perform (a : action) (w : World) : World :=
  match a with
  | SubscribeToCart => subscribeToCart w
  | UnsubscribeFromCart => unsubscribeFromCart w
  | LoadCartBegin => loadCart_begin w
  | LoadCartResume r => loadCart_resume r w
  | Snapshot l d =>
      match listeners w !! l with
      | Some _ => on_snapshot d w
      | None => w
      end
  | ListenerError l msg =>
      match listeners w !! l with
      | Some _ =>
          on_error msg
            (mkWorld (store w) (currentUser w) (delete l (listeners w))
                     (nextListener w) (log w) (server w))
      | None => w
      end
  | AddToCart product qty => addToCart product qty w
  | UpdateQuantity i qty => updateQuantity i qty w
  | RemoveFromCart i => removeFromCart i w
  | ClearCart => clearCart w
  | AuthChange u => set_user u w
  | ServerChange sv => set_server sv w
  end.

(** Every live listener is the one whose cancellation function the store
    holds. *)
Definition handle_owns_listeners (w : World) : Prop :=
  forall i, is_Some (listeners w !! i) -> unsubscribe (store w) = Some i.

(** What the store knows of its subscription. *)
Definition subscription_state (w : World)
  : gmap nat string * nat * list event * option nat :=
  (listeners w, nextListener w, log w, unsubscribe (store w)).

(** The store as created: nothing subscribed; the cart is whatever the
    persistence layer restored. *)
Definition initial (c : list CartItem) (u : option string) (sv : Server) : World :=
  mkWorld (mkState c false None None) u ∅ 0%nat [] sv.

Inductive reachable : World -> Prop :=
| reachable_initial c u sv : reachable (initial c u sv)
| reachable_perform a w : reachable w -> reachable (perform a w).

End Store.

End CartStore.

(** ** Concrete worlds

    Small instances on which the definitions above are run. *)

Module Scenarios.

Import SessionValidation.

Definition customer : UserRecord := mkUser "customer" false false.
Definition administrator : UserRecord := mkUser "admin" false false.
Definition suspended_customer : UserRecord := mkUser "customer" true false.

(** A signed-in customer, nothing cached, the clock at zero. *)
Definition customer_world : World :=
  mkWorld (Some "u1") {["u1" := customer]} ∅ 0 0 0.

(** A signed-in administrator, nothing cached; a read takes 40 ms. *)
Definition admin_world : World :=
  mkWorld (Some "a1") {["a1" := administrator]} ∅ 1000 40 0.

(** A signed-in subject whose account is suspended. *)
Definition suspended_world : World :=
  mkWorld (Some "u2") {["u2" := suspended_customer]} ∅ 0 0 0.

(** A signed-in administrator whose account is deactivated, and a
    signed-in subject without a user document. *)
Definition deactivated_world : World :=
  mkWorld (Some "a2") {["a2" := mkUser "admin" false true]} ∅ 0 0 0.
Definition unknown_world : World :=
  mkWorld (Some "u3") ∅ ∅ 0 0 0.

(** The administrator's verdict cached at time 1040, looked at one minute
    and ten minutes later. *)
Definition admin_entry : CacheEntry := mkEntry true administrator 1040.
Definition admin_cached_at (t : Z) : World :=
  mkWorld (Some "a1") {["a1" := administrator]}
          {[cacheKey "a1" "admin" := admin_entry]} t 40 1.

(** Entries of subject [u1], of subject [u10] and of subject [v]. *)
Definition three_subjects : World :=
  mkWorld (Some "u1") {["u1" := customer]}
          (<[cacheKey "u1" "admin" := mkEntry false customer 0]>
           (<[cacheKey "u1" "customer" := mkEntry true customer 0]>
            (<[cacheKey "u10" "admin" := mkEntry true administrator 0]>
             {[cacheKey "v" "admin" := mkEntry true administrator 0]})))
          10 0 3.

(** The administrator, signed in after an empty start, checked once. *)
Definition admin_checked : World :=
  session_perform (CallValidateUserRole "admin") admin_world.

(** The customer refused once as administrator, then promoted in the
    system of record, one minute later. *)
Definition promoted_customer : gmap string UserRecord :=
  {["u1" := administrator]}.

End Scenarios.

Module OrderScenarios.

Import SessionValidation BusinessLogic.

(** Modelled from the spec: [inventoryService.checkAvailability], whose
    module is not among the sources; section 4.4, step 3, has the inventory
    check re-read the current product record and compare the requested
    quantity with the available one.  A product without a record, or
    without the field, has nothing available. *)
Definition stored_availability (ps : gmap string ProductDoc) (pid : string) : Z :=
  match ps !! pid with
  | Some p => default 0 (pd_quantityAvailable (data p))
  | None => 0
  end.

Definition product (n : string) (q : Z) : ProductDoc :=
  mkProductDoc (mkProductData (Some n) (Some "Hand made") (Some (250 # 1))
                              (Some "pantry") (Some q))
               0 0 true false 0 0.

Definition shoppers : gmap string UserRecord :=
  <["u1" := mkUser "customer" false false]>
    {["u2" := mkUser "customer" false false]}.

(** Two products; [q] units of each in stock. *)
Definition shop (q : Z) : Db :=
  mkDb shoppers (<["p1" := product "Pickle" q]> {["p2" := product "Honey" q]})
       ∅ [] [].

(** A call for which every external call succeeds. *)
Definition calm (docId rnd : string) : Env :=
  mkEnv 1700000000000 docId rnd None None None None None stored_availability.

(** The same, except that sending the confirmation mail is rejected. *)
Definition mail_down (docId rnd : string) : Env :=
  mkEnv 1700000000000 docId rnd None None None None (Some "SMTP unavailable")
        stored_availability.

Definition home : option Shipping := Some (mkShipping "12 Hill Road").

(** One unit of [p1]; the item carries [seen] as its copy of the stock. *)
Definition one_pickle (seen : Z) : OrderData :=
  mkOrderData [mkItem "p1" 1 seen] home.

(** A well-formed product with nothing in stock yet, one with a zero price
    and one with a negative price. *)
Definition out_of_stock_tea : ProductData :=
  mkProductData (Some "Tea") (Some "First flush") (Some (250 # 1))
                (Some "tea") (Some 0).
Definition free_tea : ProductData :=
  mkProductData (Some "Tea") (Some "First flush") (Some (0 # 1))
                (Some "tea") (Some 3).
Definition negative_tea : ProductData :=
  mkProductData (Some "Tea") (Some "First flush") (Some (-5 # 1))
                (Some "tea") (Some 3).
Definition stocked_tea : ProductData :=
  mkProductData (Some "Tea") (Some "First flush") (Some (250 # 1))
                (Some "tea") (Some 3).

(** Two calls in flight, each for one unit of [p1], each item carrying the
    stock of one that the shop shows. *)
Definition first_call : call :=
  mkCall (calm "o1" "k3x9q0a1b") (one_pickle 1) "u1" Started.
Definition second_call : call :=
  mkCall (calm "o2" "z8y7w6v5u") (one_pickle 1) "u2" Started.

Definition task_returned (c : call) : bool :=
  match call_task c with
  | Finished (Returns _) => true
  | _ => false
  end.

(** A call whose batch is rejected, and one whose inventory set-up is. *)
Definition commit_down (docId rnd : string) : Env :=
  mkEnv 1700000000000 docId rnd None None None (Some "UNAVAILABLE") None
        stored_availability.
Definition inventory_down (docId rnd : string) : Env :=
  mkEnv 1700000000000 docId rnd None (Some "inventory offline") None None None
        stored_availability.


End OrderScenarios.

Module CartScenarios.

Import CartStore.

(** The [carts] collection, one item list per user. *)
Definition Carts : Type := gmap string (list (@CartItem Q)).

Definition cart_of (uid : string) (carts : Carts) : list (@CartItem Q) :=
  default [] (carts !! uid).

Definition put_cart (uid : string) (c : list (@CartItem Q)) (carts : Carts)
  : outcome (list (@CartItem Q)) * Carts :=
  (Returns c, <[uid := c]> carts).

(** Modelled from the spec: the cart methods of the business logic service
    and the session check of the session validator, none of which the two
    service classes in the sources define.  Section 4.2 has each mutation
    applied to the user's cart document and the resulting cart returned;
    section 3 keeps no item with a quantity of zero. *)
Definition document_services : @Services Q Carts :=
  mkServices
    (fun uid product qty carts =>
       put_cart uid
         (if existsb (fun item => String.eqb (id item) (id product)) (cart_of uid carts)
          then map (fun item =>
                      if String.eqb (id item) (id product)
                      then mkCartItem (id item) (name item) (price item)
                                      (quantity item + qty)%Q
                      else item) (cart_of uid carts)
          else cart_of uid carts
               ++ [mkCartItem (id product) (name product) (price product) qty])
         carts)
    (fun uid i qty carts =>
       put_cart uid
         (map (fun item =>
                 if String.eqb (id item) i
                 then mkCartItem (id item) (name item) (price item) qty
                 else item) (cart_of uid carts))
         carts)
    (fun uid i carts =>
       put_cart uid
         (List.filter (fun item => negb (String.eqb (id item) i))
                      (cart_of uid carts))
         carts)
    (fun uid carts => (Returns tt, delete uid carts))
    (fun uid carts => (Returns tt, carts))
    (fun uid carts => (Returns (Some <$> carts !! uid), carts)).

(** The services as the two classes in the sources have them: every one of
    these methods is undefined, so every call throws. *)
Definition undefined_services : @Services Q Carts :=
  @mkServices Q Carts
    (fun _ _ _ carts =>
       (Throws "businessLogicService.addToCart is not a function", carts))
    (fun _ _ _ carts =>
       (Throws "businessLogicService.updateCartQuantity is not a function", carts))
    (fun _ _ carts =>
       (Throws "businessLogicService.removeFromCart is not a function", carts))
    (fun _ carts =>
       (Throws "businessLogicService.clearCart is not a function", carts))
    (fun _ carts =>
       (Throws "sessionValidationService.validateActiveSession is not a function",
        carts))
    (fun uid (carts : Carts) => (Returns (Some <$> carts !! uid), carts)).

Definition pickle : @CartItem Q := mkCartItem "p1" "Pickle" (1205 # 10) (2 # 1).
Definition honey : @CartItem Q := mkCartItem "p2" "Honey" (99 # 1) (1 # 1).
Definition shawl : @CartItem Q := mkCartItem "p3" "Shawl" (450 # 1) (1 # 1).

(** A signed-in user with two items in the cart, on the server and in the
    store, and nothing subscribed. *)
Definition basket : @World Q Carts :=
  initial [pickle; honey] (Some "u1") {["u1" := [pickle; honey]]}.

Definition big_basket : @World Q Carts :=
  initial [pickle; honey; shawl] (Some "u1") {["u1" := [pickle; honey; shawl]]}.

(** The same user after one call of [subscribeToCart]. *)
Definition subscribed_basket : @World Q Carts := subscribeToCart basket.

Definition returned_Q (r : outcome Q * @World Q Carts) : Q :=
  match fst r with
  | Returns q => Qred q
  | Throws _ => 0 # 1
  end.

End CartScenarios.

(** * Properties of the session validation service *)

Section SessionValidationFacts.

Import SessionValidation.

Implicit Types (w : World) (c : gmap string CacheEntry) (k u : string).

(** *** String prefixes and cache keys *)

Lemma prefix_nil k : String.prefix "" k = true.
Proof. by destruct k. Qed.

Lemma append_cons a (s t : string) : (String a s ++ t = String a (s ++ t))%string.
Proof. reflexivity. Qed.

Lemma prefix_append u rest : String.prefix u (u ++ rest) = true.
Proof.
  induction u as [|a u IH].
  - apply prefix_nil.
  - rewrite append_cons. simpl.
    destruct (Ascii.ascii_dec a a); [exact IH | congruence].
Qed.

Lemma append_assoc (a b d : string) : ((a ++ b) ++ d = a ++ (b ++ d))%string.
Proof.
  induction a as [|x a IH]; [reflexivity |].
  rewrite !append_cons. by rewrite IH.
Qed.

Lemma prefix_cacheKey uid rest r :
  String.prefix uid (cacheKey (uid ++ rest) r) = true.
Proof. unfold cacheKey. rewrite append_assoc. apply prefix_append. Qed.

Lemma prefix_cacheKey_own uid r : String.prefix uid (cacheKey uid r) = true.
Proof. unfold cacheKey. apply prefix_append. Qed.

Lemma truthy_string_false u : truthy_string u = false -> u = "".
Proof. by destruct u. Qed.

(** *** The deletion loop *)

Lemma delete_matching_other u keys c k :
  String.prefix u k = false -> delete_matching u keys c !! k = c !! k.
Proof.
  intros Hk. revert c.
  induction keys as [|key rest IH]; intros c; simpl; [done |].
  rewrite IH. destruct (String.prefix u key) eqn:Hkey; [| done].
  apply lookup_delete_ne. intros ->. congruence.
Qed.

Lemma delete_matching_absent u keys c k :
  c !! k = None -> delete_matching u keys c !! k = None.
Proof.
  revert c. induction keys as [|key rest IH]; intros c Hc; simpl; [done |].
  apply IH. destruct (String.prefix u key); [| done].
  rewrite lookup_delete. case_decide; done.
Qed.

Lemma delete_matching_visited u keys c k :
  String.prefix u k = true -> k ∈ keys -> delete_matching u keys c !! k = None.
Proof.
  intros Hk. revert c.
  induction keys as [|key rest IH]; intros c Hin; simpl.
  - by apply elem_of_nil in Hin.
  - apply elem_of_cons in Hin as [<- | Hin].
    + rewrite Hk. apply delete_matching_absent, lookup_delete_eq.
    + by apply IH.
Qed.

Lemma keys_of_map c k : is_Some (c !! k) -> k ∈ map fst (map_to_list c).
Proof.
  intros [e He]. apply list_elem_of_In, in_map_iff.
  exists (k, e). split; [done |].
  apply list_elem_of_In, elem_of_map_to_list. exact He.
Qed.

Lemma clearCache_lookup u w k :
  sessionCache (clearCache (Some u) w) !! k
  = if String.prefix u k then None else sessionCache w !! k.
Proof.
  unfold clearCache. destruct (truthy_string u) eqn:Hu; simpl.
  - destruct (String.prefix u k) eqn:Hk.
    + destruct (sessionCache w !! k) as [e|] eqn:He.
      * apply delete_matching_visited; [done |]. apply keys_of_map. by eexists.
      * by apply delete_matching_absent.
    + by apply delete_matching_other.
  - apply truthy_string_false in Hu as ->. by rewrite prefix_nil.
Qed.

(** *** Reads of the system of record *)

Lemma cache_hit_Some w key e :
  sessionCache w !! key = Some e ->
  now w - timestamp e < cacheTimeout ->
  cache_hit w key = Some e.
Proof.
  intros He Hage. unfold cache_hit. rewrite He.
  destruct (Z.ltb_spec (now w - timestamp e) cacheTimeout); [done | lia].
Qed.

Lemma cache_hit_stale w key e :
  sessionCache w !! key = Some e ->
  cacheTimeout <= now w - timestamp e ->
  cache_hit w key = None.
Proof.
  intros He Hage. unfold cache_hit. rewrite He.
  destruct (Z.ltb_spec (now w - timestamp e) cacheTimeout); [lia | done].
Qed.

Lemma cache_hit_absent w key :
  sessionCache w !! key = None -> cache_hit w key = None.
Proof. intros He. unfold cache_hit. by rewrite He. Qed.

(** A check that finds no fresh entry reads the user's document once. *)
Lemma validateUserRole_miss_reads w uid r :
  currentUser w = Some uid ->
  cache_hit w (cacheKey uid r) = None ->
  reads (snd (validateUserRole r w)) = S (reads w).
Proof.
  intros Hu Hmiss. unfold validateUserRole. rewrite Hu. simpl. rewrite Hmiss.
  unfold bind, getDoc_users, throw, ret, modify. simpl.
  destruct (users w !! uid) as [d|]; [| done].
  destruct (suspended d); [done |].
  destruct (deactivated d); [done |].
  simpl. by destruct (String.eqb (role d) r).
Qed.

(** A check that finds a fresh entry leaves the world as it is. *)
Lemma validateUserRole_hit w uid r e :
  currentUser w = Some uid ->
  cache_hit w (cacheKey uid r) = Some e ->
  validateUserRole r w
  = (if hasPermission e then Returns (userData e)
     else Throws "Insufficient permissions", w).
Proof.
  intros Hu Hhit. unfold validateUserRole. rewrite Hu. simpl. rewrite Hhit.
  by destruct (hasPermission e).
Qed.

(** A check whose read finds a record in good standing caches its verdict
    under the time at which the read came back. *)
Lemma validateUserRole_miss_caches w uid r d :
  currentUser w = Some uid ->
  cache_hit w (cacheKey uid r) = None ->
  users w !! uid = Some d ->
  suspended d = false ->
  deactivated d = false ->
  snd (validateUserRole r w)
  = mkWorld (Some uid) (users w)
      (<[cacheKey uid r := mkEntry (String.eqb (role d) r) d (now w + latency w)]>
         (sessionCache w))
      (now w + latency w) (latency w) (S (reads w)).
Proof.
  intros Hu Hmiss Hd Hs Hde. unfold validateUserRole. rewrite Hu. simpl.
  rewrite Hmiss. unfold bind, getDoc_users, throw, ret, modify. simpl.
  rewrite Hd, Hs, Hde. simpl. rewrite Hu.
  by destruct (String.eqb (role d) r).
Qed.

(** A check whose read finds no record, or an account that is suspended
    or deactivated, throws and caches nothing. *)
Lemma validateUserRole_miss_uncached w uid r :
  currentUser w = Some uid ->
  cache_hit w (cacheKey uid r) = None ->
  (users w !! uid = None
   \/ exists d, users w !! uid = Some d
                /\ (suspended d = true \/ deactivated d = true)) ->
  is_returns (fst (validateUserRole r w)) = false
  /\ snd (validateUserRole r w)
     = mkWorld (Some uid) (users w) (sessionCache w)
               (now w + latency w) (latency w) (S (reads w)).
Proof.
  intros Hu Hmiss Hdoc. unfold validateUserRole. rewrite Hu. simpl.
  rewrite Hmiss. unfold bind, getDoc_users, throw, ret, modify. simpl. rewrite Hu.
  destruct Hdoc as [-> | (d & -> & [Hs | Hd])]; [done | by rewrite Hs |].
  rewrite Hd. by destruct (suspended d).
Qed.

(** An entry that is stale, or missing, stays so as the clock advances. *)
Lemma cache_hit_stays_none w w' key :
  cache_hit w key = None ->
  sessionCache w' = sessionCache w ->
  now w <= now w' ->
  cache_hit w' key = None.
Proof.
  unfold cache_hit. intros Hmiss -> Hnow.
  destruct (sessionCache w !! key) as [e|]; [| done].
  destruct (Z.ltb_spec (now w - timestamp e) cacheTimeout); [done |].
  destruct (Z.ltb_spec (now w' - timestamp e) cacheTimeout); [lia | done].
Qed.

End SessionValidationFacts.

Section SessionValidationClaims.

Import SessionValidation Scenarios.

(** C10.  [clearCache(userId)] removes exactly the cache entries whose key
    starts with [userId] and keeps every other entry: all entries of that
    subject, whatever the required role, are gone, and so are the entries of
    any subject whose uid extends [userId]; the subject's next role check,
    at whatever time, reads the system of record.  Without an argument the
    cache is emptied. *)
Theorem clearCache_removes_keys_with_prefix (w : World) :
  (forall u k,
     sessionCache (clearCache (Some u) w) !! k
     = if String.prefix u k then None else sessionCache w !! k)
  /\ (forall uid r,
        sessionCache (clearCache (Some uid) w) !! cacheKey uid r = None)
  /\ (forall uid rest r,
        sessionCache (clearCache (Some uid) w) !! cacheKey (uid ++ rest) r = None)
  /\ (forall uid r t,
        currentUser w = Some uid ->
        reads (snd (validateUserRole r (set_now t (clearCache (Some uid) w))))
        = S (reads w))
  /\ sessionCache (clearCache None w) = ∅.
Proof.
  repeat split.
  - intros u k. apply clearCache_lookup.
  - intros uid r. by rewrite clearCache_lookup, prefix_cacheKey_own.
  - intros uid rest r. by rewrite clearCache_lookup, prefix_cacheKey.
  - intros uid r t Hu.
    rewrite (validateUserRole_miss_reads _ uid).
    + by destruct w; unfold clearCache; destruct (truthy_string uid).
    + destruct w; unfold clearCache; simpl in *; by destruct (truthy_string uid).
    + apply cache_hit_absent.
      assert (sessionCache (set_now t (clearCache (Some uid) w))
              = sessionCache (clearCache (Some uid) w)) as ->
        by (unfold clearCache; by destruct (truthy_string uid)).
      by rewrite clearCache_lookup, prefix_cacheKey_own.
Qed.

(** On the cache of [three_subjects], invalidating [u1] drops both entries
    of [u1] and the entry of [u10], keeps the entry of [v], and the next
    check of [u1] reads the system of record. *)
Lemma clearCache_removes_keys_with_prefix_witness :
  sessionCache (clearCache (Some "u1") three_subjects) !! cacheKey "u10" "admin" = None
  /\ sessionCache (clearCache (Some "u1") three_subjects) !! cacheKey "v" "admin"
     = Some (mkEntry true administrator 0)
  /\ reads (snd (validateUserRole "customer"
                   (set_now 11 (clearCache (Some "u1") three_subjects)))) = 4%nat.
Proof.
  destruct (clearCache_removes_keys_with_prefix three_subjects)
    as (Hexact & _ & Hlonger & Hread & _).
  split; [exact (Hlonger "u1" "0" "admin") |].
  split; [rewrite (Hexact "u1" (cacheKey "v" "admin")); reflexivity |].
  exact (Hread "u1" "customer" 11 eq_refl).
Defined.

(** C6, as amended.  For a signed-in subject and a required role: a check
    that finds a cache entry younger than the time-to-live reads nothing
    and answers from the entry (the cached record when [hasPermission],
    the permission error otherwise); a check that finds an entry at least
    as old as the time-to-live answers as if the entry were absent and
    reads the system of record once.  Hence, when the first check starts
    without a fresh entry and its read finds a record that is neither
    suspended nor deactivated, that check and a second one inside the
    time-to-live of the entry it cached read once in all, and a third check
    after the time-to-live has passed reads a second time.  When instead
    the read finds no record, or an account that is suspended or
    deactivated, the check throws, nothing is cached, and the next check
    reads again. *)
Theorem cache_ttl_bounds_reads (w : World) (uid r : string) :
  currentUser w = Some uid ->
  (forall e,
     sessionCache w !! cacheKey uid r = Some e ->
     now w - timestamp e < cacheTimeout ->
     validateUserRole r w
     = (if hasPermission e then Returns (userData e)
        else Throws "Insufficient permissions", w))
  /\ (forall e,
        sessionCache w !! cacheKey uid r = Some e ->
        cacheTimeout <= now w - timestamp e ->
        reads (snd (validateUserRole r w)) = S (reads w)
        /\ fst (validateUserRole r w)
           = fst (validateUserRole r
                    (set_cache (delete (cacheKey uid r) (sessionCache w)) w)))
  /\ (forall d t2 t3,
        cache_hit w (cacheKey uid r) = None ->
        users w !! uid = Some d ->
        suspended d = false ->
        deactivated d = false ->
        t2 - (now w + latency w) < cacheTimeout ->
        cacheTimeout <= t3 - (now w + latency w) ->
        let w1 := snd (validateUserRole r w) in
        let w2 := snd (validateUserRole r (set_now t2 w1)) in
        let w3 := snd (validateUserRole r (set_now t3 w2)) in
        reads w1 = S (reads w)
        /\ reads w2 = S (reads w)
        /\ reads w3 = S (S (reads w)))
  /\ (forall t2,
        cache_hit w (cacheKey uid r) = None ->
        (users w !! uid = None
         \/ exists d, users w !! uid = Some d
                      /\ (suspended d = true \/ deactivated d = true)) ->
        now w <= t2 ->
        let w1 := snd (validateUserRole r w) in
        is_returns (fst (validateUserRole r w)) = false
        /\ sessionCache w1 = sessionCache w
        /\ reads w1 = S (reads w)
        /\ reads (snd (validateUserRole r (set_now t2 w1))) = S (S (reads w))).
Proof.
  intros Hu. split; [| split; [| split]]; cycle 3.
  { intros t2 Hmiss Hdoc Ht2 w1.
    destruct (validateUserRole_miss_uncached w uid r Hu Hmiss Hdoc) as [Hthrow Hw1].
    subst w1. rewrite Hw1. split; [done |]. split; [done |]. split; [done |].
    rewrite (validateUserRole_miss_reads _ uid); [done | done |].
    by apply (cache_hit_stays_none w). }
  - intros e He Hage.
    apply (validateUserRole_hit _ uid); [done |]. by apply cache_hit_Some.
  - intros e He Hage. split.
    + apply (validateUserRole_miss_reads _ uid); [done |].
      by apply (cache_hit_stale _ _ e).
    + unfold validateUserRole. simpl. rewrite Hu. simpl.
      rewrite (cache_hit_stale _ _ e He Hage).
      rewrite cache_hit_absent by (simpl; apply lookup_delete_eq).
      unfold bind, getDoc_users, throw, ret, modify. simpl.
      destruct (users w !! uid) as [d|]; [| done].
      destruct (suspended d); [done |].
      destruct (deactivated d); [done |].
      simpl. by destruct (String.eqb (role d) r).
  - intros d t2 t3 Hmiss Hd Hs Hde Ht2 Ht3 w1 w2 w3.
    pose (e := mkEntry (String.eqb (role d) r) d (now w + latency w)).
    assert (Hw1 : w1 = mkWorld (Some uid) (users w)
                         (<[cacheKey uid r := e]> (sessionCache w))
                         (now w + latency w) (latency w) (S (reads w)))
      by (by apply validateUserRole_miss_caches).
    assert (Hw2 : w2 = set_now t2 w1).
    { subst w2.
      rewrite (validateUserRole_hit (set_now t2 w1) uid r e); [done | |].
      - by rewrite Hw1.
      - apply cache_hit_Some; rewrite Hw1; simpl; [apply lookup_insert_eq | done]. }
    split; [by rewrite Hw1 |]. split; [by rewrite Hw2, Hw1 |].
    subst w3.
    rewrite (validateUserRole_miss_reads _ uid).
    + by rewrite Hw2, Hw1.
    + by rewrite Hw2, Hw1.
    + apply (cache_hit_stale _ _ e); rewrite Hw2, Hw1; simpl;
        [apply lookup_insert_eq | done].
Qed.

(** The administrator's entry answers without a read after one minute, is
    passed over after ten, and three checks at 1000, 61040 and 601040 ms
    read once, once and twice in all.  A suspended account, a deactivated
    one and a subject without a document are each refused with nothing
    cached, and checked a second later are read a second time. *)
Lemma cache_ttl_bounds_reads_witness :
  validateUserRole "admin" (admin_cached_at 61040)
  = (Returns administrator, admin_cached_at 61040)
  /\ reads (snd (validateUserRole "admin" (admin_cached_at 601040))) = 2%nat
  /\ (let w1 := snd (validateUserRole "admin" admin_world) in
      let w2 := snd (validateUserRole "admin" (set_now 61040 w1)) in
      let w3 := snd (validateUserRole "admin" (set_now 601040 w2)) in
      reads w1 = 1%nat /\ reads w2 = 1%nat /\ reads w3 = 2%nat)
  /\ (let w1 := snd (validateUserRole "customer" suspended_world) in
      sessionCache w1 = ∅
      /\ reads (snd (validateUserRole "customer" (set_now 1000 w1))) = 2%nat)
  /\ (let w1 := snd (validateUserRole "admin" deactivated_world) in
      is_returns (fst (validateUserRole "admin" deactivated_world)) = false
      /\ sessionCache w1 = ∅
      /\ reads (snd (validateUserRole "admin" (set_now 1000 w1))) = 2%nat)
  /\ (let w1 := snd (validateUserRole "admin" unknown_world) in
      sessionCache w1 = ∅
      /\ reads (snd (validateUserRole "admin" (set_now 1000 w1))) = 2%nat).
Proof.
  split; [| split; [| split; [| split; [| split]]]].
  - exact (proj1 (cache_ttl_bounds_reads (admin_cached_at 61040) "a1" "admin" eq_refl)
             admin_entry eq_refl eq_refl).
  - refine (proj1 (proj1 (proj2 (cache_ttl_bounds_reads (admin_cached_at 601040)
                                   "a1" "admin" eq_refl))
                     admin_entry eq_refl _)).
    vm_compute. discriminate.
  - refine (proj1 (proj2 (proj2 (cache_ttl_bounds_reads admin_world "a1" "admin"
                                   eq_refl)))
              administrator 61040 601040 eq_refl eq_refl eq_refl eq_refl eq_refl _).
    vm_compute. discriminate.
  - destruct (proj2 (proj2 (proj2 (cache_ttl_bounds_reads suspended_world "u2"
                                      "customer" eq_refl)))
                1000 eq_refl) as (_ & Hcache & _ & Hreads).
    + right. exists suspended_customer. split; [reflexivity | by left].
    + vm_compute. discriminate.
    + split; [exact Hcache | exact Hreads].
  - destruct (proj2 (proj2 (proj2 (cache_ttl_bounds_reads deactivated_world "a2"
                                      "admin" eq_refl)))
                1000 eq_refl) as (Hthrow & Hcache & _ & Hreads).
    + right. exists (mkUser "admin" false true). split; [reflexivity | by right].
    + vm_compute. discriminate.
    + split; [exact Hthrow |]. split; [exact Hcache | exact Hreads].
  - destruct (proj2 (proj2 (proj2 (cache_ttl_bounds_reads unknown_world "u3"
                                      "admin" eq_refl)))
                1000 eq_refl) as (_ & Hcache & _ & Hreads).
    + by left.
    + vm_compute. discriminate.
    + split; [exact Hcache | exact Hreads].
Defined.

(** C6, as stated, fails for a suspended account: nothing is cached when
    the read finds the account suspended, so two checks one second apart
    read the system of record twice. *)
Lemma cache_ttl_suspended_reads_twice :
  1000 - now suspended_world < cacheTimeout
  /\ fst (validateUserRole "customer" suspended_world)
     = Throws "User account suspended"
  /\ sessionCache (snd (validateUserRole "customer" suspended_world)) = ∅
  /\ reads (snd (validateUserRole "customer"
                   (set_now 1000
                      (snd (validateUserRole "customer" suspended_world)))))
     = 2%nat.
Proof. repeat split. Qed.

(** C3.  A signed-in customer asks to read orders.  The matrix lists the
    action under the customer role, yet [checkPermission] fails: its role
    check requires the administrator role, and the matrix is never
    consulted. *)
Theorem checkPermission_customer_read_orders :
  includes (matrix_actions "customer" (Some "orders")) "read" = true
  /\ checkPermission "read" (Some "orders") customer_world
     = (Throws "Access denied. Required role: admin, current role: customer",
        mkWorld (Some "u1") {["u1" := customer]}
                {[cacheKey "u1" "admin" := mkEntry false customer 0]} 0 0 1).
Proof. split; reflexivity. Qed.

(** Whatever the world, [checkPermission] returns only for a record whose
    role is the administrator's. *)
Lemma checkPermission_returns_admin_only (w : World) action resource b :
  fst (checkPermission action resource w) = Returns b ->
  exists d, fst (validateUserRole "admin" w) = Returns d
            /\ includes (matrix_actions (role d) resource) action = true.
Proof.
  unfold checkPermission, bind.
  destruct (validateUserRole "admin" w) as [[d | msg] w'] eqn:Hv; [| done].
  simpl. destruct (includes (matrix_actions (role d) resource) action) eqn:Hin;
    [| done].
  intros _. by exists d.
Qed.

End SessionValidationClaims.

(** * Properties of the business logic service *)

Section BusinessLogicClaims.

Import SessionValidation BusinessLogic OrderScenarios.

(** The search-index sync swallows its own failure. *)
Lemma syncProductToSearch_never_throws env pid db :
  fst (syncProductToSearch env pid db) = Returns tt.
Proof.
  unfold syncProductToSearch, try_catch, bind, reject_if, modify, throw, ret.
  by destruct (indexProductFails env).
Qed.

(** The confirmation mail does not: whenever it is rejected, so is
    [processOrder]. *)
Lemma processOrder_throws_when_mail_fails env orderData uid db msg :
  sendOrderConfirmationFails env = Some msg ->
  is_returns (fst (processOrder env orderData uid db)) = false.
Proof.
  intros Hmail. unfold processOrder, bind.
  destruct (processOrder_checks env orderData uid db) as [[[] | m] db1]; [| done].
  unfold processOrder_write, try_catch, bind, sendOrderConfirmation, reject_if.
  rewrite Hmail.
  destruct (commit env (batch_of env orderData uid) db1) as [[[] | m] db2]; done.
Qed.

(** C1.  A customer orders one unit of a product that is in stock; the batch
    commits (the order is stored with status processing and the stock is
    rewritten), then the confirmation mail is rejected.  [processOrder]
    does not return the order: it throws, with the mail's error wrapped as
    a failure to process the order. *)
Theorem processOrder_mail_failure_is_thrown :
  let env := mail_down "o1" "k3x9q0a1b" in
  let '(result, db) := processOrder env (one_pickle 5) "u1" (shop 5) in
  result = Throws "Failed to process order: SMTP unavailable"
  /\ orders db !! "o1" = Some (order_of env (one_pickle 5) "u1")
  /\ status (order_of env (one_pickle 5) "u1") = "processing"
  /\ stock_of "p1" db = Some 4
  /\ confirmations db = [].
Proof. vm_compute. repeat split. Qed.

(** The awaited checks only read. *)
Lemma for_of_reads_only {A} (xs : list A) (body : A -> M Db unit) (db : Db) :
  (forall x d, snd (body x d) = d) -> snd (for_of xs body db) = db.
Proof.
  intros Hbody. revert db. induction xs as [|x rest IH]; intros db; [done |].
  simpl. unfold bind. specialize (Hbody x db).
  destruct (body x db) as [[[] | msg] d]; simpl in *; subst; [apply IH | done].
Qed.

Lemma processOrder_checks_reads_only env orderData uid db :
  snd (processOrder_checks env orderData uid db) = db.
Proof.
  unfold processOrder_checks, bind.
  assert (Hsession : snd (validateActiveSession uid db) = db).
  { unfold validateActiveSession, bind, gets, throw, ret.
    destruct (db_users db !! uid) as [u|]; [| done]. by destruct (suspended u). }
  destruct (validateActiveSession uid db) as [[u | msg] d]; simpl in *; subst;
    [| done].
  assert (Hdata : snd (validateOrderData orderData db) = db).
  { unfold validateOrderData. destruct (items orderData) as [|it its]; [done |].
    destruct (negb _); [done |].
    apply for_of_reads_only. intros x d. unfold bind, gets, throw, ret.
    destruct (products d !! item_id x) as [p|]; [| done].
    by destruct (from_option _ _ _). }
  destruct (validateOrderData orderData db) as [[[] | msg] d]; simpl in *; subst;
    [| done].
  apply for_of_reads_only. intros x d. unfold bind, gets, throw, ret.
  by destruct (Z.ltb _ _).
Qed.

(** The stock updates of a batch, applied to products that are pairwise
    distinct, leave each of them at the item's copy less the quantity. *)
Lemma apply_updates_other (its : list Item) (db db' : Db) (pid : string) :
  apply_writes
    (map (fun item => UpdateQuantityAvailable (item_id item)
                        (item_quantityAvailable item - item_quantity item)) its)
    db = Some db' ->
  pid ∉ map item_id its ->
  products db' !! pid = products db !! pid.
Proof.
  revert db. induction its as [|it rest IH]; intros db Hw Hnot; simpl in *.
  - by injection Hw as <-.
  - apply not_elem_of_cons in Hnot as [Hne Hnot].
    destruct (products db !! item_id it) as [p|] eqn:Hp; [| done].
    rewrite (IH _ Hw Hnot). simpl. by apply lookup_insert_ne.
Qed.

Lemma apply_updates_stock (its : list Item) (db db' : Db) :
  NoDup (map item_id its) ->
  apply_writes
    (map (fun item => UpdateQuantityAvailable (item_id item)
                        (item_quantityAvailable item - item_quantity item)) its)
    db = Some db' ->
  forall item, item ∈ its ->
    stock_of (item_id item) db'
    = Some (item_quantityAvailable item - item_quantity item).
Proof.
  revert db. induction its as [|it rest IH]; intros db Hnd Hw item Hin; simpl in *.
  - by apply elem_of_nil in Hin.
  - apply NoDup_cons in Hnd as [Hfresh Hnd].
    destruct (products db !! item_id it) as [p|] eqn:Hp; [| done].
    apply elem_of_cons in Hin as [-> | Hin].
    + unfold stock_of. rewrite (apply_updates_other _ _ _ _ Hw Hfresh). simpl.
      by rewrite lookup_insert_eq.
    + by apply (IH _ Hnd Hw).
Qed.

(** What a successful [processOrder] stores for the products of an order
    whose items name distinct products: the item's own copy of the stock
    less the ordered quantity, whatever was stored before. *)
Lemma processOrder_stores_item_copy env orderData uid db result :
  fst (processOrder env orderData uid db) = Returns result ->
  NoDup (map item_id (items orderData)) ->
  forall item, item ∈ items orderData ->
    stock_of (item_id item) (snd (processOrder env orderData uid db))
    = Some (item_quantityAvailable item - item_quantity item).
Proof.
  intros Hret Hnd item Hin. revert Hret.
  unfold processOrder, bind.
  pose proof (processOrder_checks_reads_only env orderData uid db) as Hsame.
  destruct (processOrder_checks env orderData uid db) as [[[] | msg] d];
    simpl in Hsame; subst; [| done].
  unfold processOrder_write, try_catch, bind, commit, batch_of.
  destruct (commitFails env); [done |].
  simpl.
  destruct (apply_writes _ _) as [db2|] eqn:Hw; [| done].
  unfold sendOrderConfirmation, bind, reject_if.
  destruct (sendOrderConfirmationFails env); [done |].
  simpl. intros _.
  change (stock_of (item_id item) (add_confirmation (order_of env orderData uid) db2))
    with (stock_of (item_id item) db2).
  by apply (apply_updates_stock _ _ _ Hnd Hw).
Qed.

(** C2.  The shop holds five units of [p1]; the ordered item carries a copy
    of the stock that says ten.  The call succeeds and the batch stores
    nine, the item's copy less the ordered unit, not the four that the
    stored five less one would give. *)
Theorem processOrder_writes_stock_from_item_copy :
  let '(result, db) :=
    processOrder (calm "o1" "k3x9q0a1b") (one_pickle 10) "u1" (shop 5) in
  is_returns result = true
  /\ stock_of "p1" (shop 5) = Some 5
  /\ stock_of "p1" db = Some 9.
Proof. vm_compute. repeat split. Qed.

(** C4.  A product with every field given, a positive price and a stock of
    zero is rejected as lacking the field [quantityAvailable], and nothing
    is written; a price of zero is rejected as lacking the field [price];
    a negative price is rejected with the price error; the same product
    with three in stock is accepted. *)
Theorem createProduct_rejects_zero_stock :
  validateProductData out_of_stock_tea
  = Throws "Missing required field: quantityAvailable"
  /\ createProduct (calm "p9" "") out_of_stock_tea "admin" (shop 1)
     = (Throws "Missing required field: quantityAvailable", shop 1)
  /\ validateProductData free_tea = Throws "Missing required field: price"
  /\ validateProductData negative_tea = Throws "Price must be greater than 0"
  /\ validateProductData stocked_tea = Returns tt.
Proof. repeat split. Qed.

(** [validateProductData] spelled out: the five presence tests in the
    order of [required], then the two range tests. *)
Lemma validateProductData_unfold (p : ProductData) :
  validateProductData p
  = if negb (from_option truthy_string false (pd_name p))
    then Throws "Missing required field: name"
    else if negb (from_option truthy_string false (pd_description p))
    then Throws "Missing required field: description"
    else if negb (from_option (fun q => negb (Qeq_bool q 0)) false (pd_price p))
    then Throws "Missing required field: price"
    else if negb (from_option truthy_string false (pd_category p))
    then Throws "Missing required field: category"
    else if negb (from_option truthy_Z false (pd_quantityAvailable p))
    then Throws "Missing required field: quantityAvailable"
    else if from_option (fun q => Qle_bool q 0) false (pd_price p)
    then Throws "Price must be greater than 0"
    else if from_option (fun q => Z.ltb q 0) false (pd_quantityAvailable p)
    then Throws "Quantity cannot be negative"
    else Returns tt.
Proof.
  unfold validateProductData, required, check_required.
  change (field_missing p "name")
    with (negb (from_option truthy_string false (pd_name p))).
  change (field_missing p "description")
    with (negb (from_option truthy_string false (pd_description p))).
  change (field_missing p "price")
    with (negb (from_option (fun q => negb (Qeq_bool q 0)) false (pd_price p))).
  change (field_missing p "category")
    with (negb (from_option truthy_string false (pd_category p))).
  change (field_missing p "quantityAvailable")
    with (negb (from_option truthy_Z false (pd_quantityAvailable p))).
  repeat match goal with
         | |- context [if negb ?b then _ else _] => destruct b; simpl
         end; reflexivity.
Qed.

(** What [validateProductData] accepts: every text field non-empty, a
    positive price, and a stock that is positive (zero does not pass). *)
Lemma validateProductData_accepts (p : ProductData) :
  validateProductData p = Returns tt
  <-> exists n d q c k,
        p = mkProductData (Some n) (Some d) (Some q) (Some c) (Some k)
        /\ n <> "" /\ d <> "" /\ c <> "" /\ (0 < q)%Q /\ 0 < k.
Proof.
  assert (Htruthy : forall s, truthy_string s = true <-> s <> "")
    by (intros []; simpl; split; congruence).
  rewrite validateProductData_unfold. split.
  - destruct p as [[n|] [d|] [q|] [c|] [k|]]; simpl; try discriminate;
      try (destruct (truthy_string n); simpl; try discriminate;
           destruct (truthy_string d); simpl; try discriminate;
           destruct (Qeq_bool q 0); simpl; try discriminate;
           destruct (truthy_string c); simpl; discriminate);
      try (destruct (truthy_string n); simpl; try discriminate;
           destruct (truthy_string d); simpl; discriminate);
      try (destruct (truthy_string n); simpl; discriminate).
    destruct (truthy_string n) eqn:Hn; simpl; [| discriminate].
    destruct (truthy_string d) eqn:Hd; simpl; [| discriminate].
    destruct (Qeq_bool q 0) eqn:Hq0; simpl; [discriminate |].
    destruct (truthy_string c) eqn:Hc; simpl; [| discriminate].
    unfold truthy_Z. destruct (Z.eqb_spec k 0) as [| Hk0]; simpl; [discriminate |].
    destruct (Qle_bool q 0) eqn:Hq; [discriminate |].
    destruct (Z.ltb_spec k 0) as [| Hk]; [discriminate |].
    intros _. exists n, d, q, c, k. repeat split; try (by apply Htruthy).
    + apply Qnot_le_lt. intros Hle. apply Qle_bool_iff in Hle. congruence.
    + lia.
  - intros (n & d & q & c & k & -> & Hn & Hd & Hc & Hq & Hk).
    apply Htruthy in Hn, Hd, Hc.
    simpl. rewrite Hn, Hd, Hc. simpl.
    assert (Qeq_bool q 0 = false) as ->.
    { destruct (Qeq_bool q 0) eqn:E; [| done].
      apply Qeq_bool_iff in E. rewrite E in Hq. by apply Qlt_irrefl in Hq. }
    simpl. unfold truthy_Z.
    destruct (Z.eqb_spec k 0); [lia |]. simpl.
    assert (Qle_bool q 0 = false) as ->.
    { destruct (Qle_bool q 0) eqn:E; [| done].
      apply Qle_bool_iff in E. by apply Qle_not_lt in E. }
    destruct (Z.ltb_spec k 0); [lia | done].
Qed.

(** Running a call through both of its stretches, with no other call in
    between, is [processOrder]. *)
Lemma step_call_twice (c : call) (db : Db) :
  call_task c = Started ->
  let '(c1, db1) := step_call c db in
  let '(c2, db2) := step_call c1 db1 in
  (call_task c2, db2)
  = (Finished (fst (processOrder (call_env c) (call_order c) (call_uid c) db)),
     snd (processOrder (call_env c) (call_order c) (call_uid c) db)).
Proof.
  intros Hc. unfold step_call, processOrder, bind. rewrite Hc.
  destruct (processOrder_checks _ _ _ db) as [[[] | msg] db1]; simpl; [| done].
  by destruct (processOrder_write _ _ _ db1).
Qed.

(** C5.  Two products with one unit each, two calls each for one unit of
    [p1].  When the second call runs its checks before the first commits,
    both calls return an order and both orders are stored, for a product
    that had a single unit; the stock ends at zero.  Run one after the
    other, the second call is refused for insufficient stock. *)
Theorem processOrder_interleaved_both_succeed :
  (let '(a, b, db) :=
     run_schedule [true; false; true; false] first_call second_call (shop 1) in
   task_returned a = true
   /\ task_returned b = true
   /\ is_Some (orders db !! "o1")
   /\ is_Some (orders db !! "o2")
   /\ stock_of "p1" db = Some 0)
  /\ (let '(a, b, db) :=
        run_schedule [true; true; false; false] first_call second_call (shop 1) in
      task_returned a = true
      /\ call_task b = Finished (Throws "Insufficient stock for Pickle")
      /\ stock_of "p1" db = Some 0).
Proof. vm_compute. repeat split; eexists; reflexivity. Qed.

End BusinessLogicClaims.

(** * Properties of the cart store *)

Section CartStoreClaims.

Import CartStore CartScenarios.

Context {num : Type} `{JsNumber num} {Server : Type}.

Implicit Types (w : @World num Server) (svc : @Services num Server).

(** *** Derived totals *)

(** [getTotalPrice] folds over the cart and gives the state back. *)
Lemma getTotalPrice_pure w :
  getTotalPrice w
  = (Returns (fold_left (fun total item =>
                           nadd total (nmul (price item) (quantity item)))
                        (cart (store w)) (lit 0)), w).
Proof. reflexivity. Qed.

(** C9.  In every state of the store the four getters return without
    changing the state, the grand total is the subtotal plus the tax plus
    the shipping fee, and the tax is the subtotal times 0.08. *)
Theorem getGrandTotal_is_sum_of_parts w :
  exists subtotal tax fee,
    getSubtotal w = (Returns subtotal, w)
    /\ getTax w = (Returns tax, w)
    /\ getShipping w = (Returns fee, w)
    /\ getGrandTotal w = (Returns (nadd (nadd subtotal tax) fee), w)
    /\ tax = nmul subtotal (lit (8 # 100)).
Proof.
  pose proof (getTotalPrice_pure w) as Htotal.
  set (total := fold_left _ _ _) in Htotal.
  exists total, (nmul total (lit (8 # 100))),
         (if ngtb total (lit 500) then lit 0 else lit 50).
  unfold getGrandTotal, getSubtotal, getTax, getShipping, bind, ret.
  rewrite !Htotal. repeat split.
Qed.

(** *** Quantity updates *)

(** C8.  With a quantity at or below zero, [updateQuantity] leaves the
    store and everything around it exactly as [removeFromCart] does. *)
Theorem updateQuantity_nonpositive_is_removeFromCart svc w (i : string) (qty : num) :
  nleb qty (lit 0) = true ->
  updateQuantity svc i qty w = removeFromCart svc i w.
Proof.
  intros Hqty. unfold updateQuantity. rewrite Hqty.
  unfold removeFromCart. by destruct (currentUser w).
Qed.

(** *** The subscription handle *)

Lemma subscribeToCart_signed_in w uid :
  currentUser w = Some uid ->
  subscribeToCart w
  = mkWorld (set_unsubscribe (Some (nextListener w)) (store w)) (Some uid)
      (<[nextListener w := uid]>
         (match unsubscribe (store w) with
          | Some h => delete h (listeners w)
          | None => listeners w
          end))
      (S (nextListener w))
      (log w
       ++ match unsubscribe (store w) with
          | Some h => [Cancelled h]
          | None => []
          end
       ++ [Opened (nextListener w) uid])
      (server w).
Proof.
  intros Hu. unfold subscribeToCart. rewrite Hu.
  destruct (unsubscribe (store w)) as [h|]; simpl; rewrite ?Hu.
  - by rewrite <- app_assoc.
  - done.
Qed.

(** Once the held listener is cancelled, none is live. *)
Lemma owned_listeners_cancelled w :
  handle_owns_listeners w ->
  match unsubscribe (store w) with
  | Some h => delete h (listeners w)
  | None => listeners w
  end = ∅.
Proof.
  intros Hinv. apply map_eq. intros i. rewrite lookup_empty.
  destruct (unsubscribe (store w)) as [h|] eqn:Hh.
  - rewrite lookup_delete. case_decide as Hi; [done |].
    destruct (listeners w !! i) as [key|] eqn:Hl; [| done].
    specialize (Hinv i). rewrite Hl, Hh in Hinv.
    assert (Some h = Some i) by (apply Hinv; by eexists). congruence.
  - destruct (listeners w !! i) as [key|] eqn:Hl; [| done].
    specialize (Hinv i). rewrite Hl, Hh in Hinv.
    assert (@None nat = Some i) by (apply Hinv; by eexists). congruence.
Qed.

Lemma subscribeToCart_owns w :
  handle_owns_listeners w -> handle_owns_listeners (subscribeToCart w).
Proof.
  intros Hinv. destruct (currentUser w) as [uid|] eqn:Hu.
  - rewrite (subscribeToCart_signed_in w uid Hu).
    rewrite (owned_listeners_cancelled w Hinv).
    intros i [key Hi]. simpl in *.
    apply lookup_insert_Some in Hi as [[<- _] | [_ Hi]]; [done |].
    by rewrite lookup_empty in Hi.
  - unfold subscribeToCart. by rewrite Hu.
Qed.

Lemma unsubscribeFromCart_owns w :
  handle_owns_listeners w -> handle_owns_listeners (unsubscribeFromCart w).
Proof.
  intros Hinv. pose proof (owned_listeners_cancelled w Hinv) as Hnone.
  unfold unsubscribeFromCart.
  destruct (unsubscribe (store w)) as [h|]; [| done].
  intros i [key Hi]. simpl in *. rewrite Hnone in Hi.
  by rewrite lookup_empty in Hi.
Qed.

(** Changing the cart, the loading flag or the error keeps the handle. *)
Lemma set_store_owns (f : State -> State) w :
  (forall s, unsubscribe (f s) = unsubscribe s) ->
  handle_owns_listeners w -> handle_owns_listeners (set_store f w).
Proof. intros Hf Hinv i Hi. simpl in *. rewrite Hf. by apply Hinv. Qed.

Lemma set_server_owns sv w :
  handle_owns_listeners w -> handle_owns_listeners (set_server sv w).
Proof. intros Hinv i Hi. by apply Hinv. Qed.

Lemma loadCart_resume_owns r w :
  handle_owns_listeners w -> handle_owns_listeners (loadCart_resume r w).
Proof.
  intros Hinv. destruct r as [[d|] | msg]; simpl;
    repeat apply subscribeToCart_owns; by apply set_store_owns.
Qed.

Lemma perform_owns svc (a : action) w :
  handle_owns_listeners w -> handle_owns_listeners (perform svc a w).
Proof.
  intros Hinv. destruct a; simpl.
  - by apply subscribeToCart_owns.
  - by apply unsubscribeFromCart_owns.
  - unfold loadCart_begin. destruct (currentUser w); [| done].
    by apply set_store_owns.
  - by apply loadCart_resume_owns.
  - destruct (listeners w !! listener); [| done].
    destruct d; by apply set_store_owns.
  - destruct (listeners w !! listener); [| done].
    apply set_store_owns; [done |].
    intros i [key Hi]. simpl in *.
    apply lookup_delete_Some in Hi as [_ Hi]. apply Hinv. by eexists.
  - unfold addToCart. destruct (currentUser w); [| done].
    destruct (svc_addToCart _ _ _ _ _) as [[c | msg] sv];
      by apply set_store_owns, set_server_owns.
  - unfold updateQuantity, removeFromCart. destruct (currentUser w); [| done].
    destruct (nleb qty (lit 0)).
    + destruct (svc_removeFromCart _ _ _ _) as [[c | msg] sv];
        by apply set_store_owns, set_server_owns.
    + destruct (svc_updateCartQuantity _ _ _ _ _) as [[c | msg] sv];
        by apply set_store_owns, set_server_owns.
  - unfold removeFromCart. destruct (currentUser w); [| done].
    destruct (svc_removeFromCart _ _ _ _) as [[c | msg] sv];
      by apply set_store_owns, set_server_owns.
  - unfold clearCart. destruct (currentUser w); [| done].
    destruct (svc_clearCart _ _ _) as [[c | msg] sv];
      by apply set_store_owns, set_server_owns.
  - intros i Hi. by apply Hinv.
  - by apply set_server_owns.
Qed.

Lemma reachable_owns svc w :
  reachable svc w -> handle_owns_listeners w.
Proof.
  induction 1 as [c u sv | a w _ IH].
  - intros i [key Hi]. simpl in Hi. by rewrite lookup_empty in Hi.
  - by apply perform_owns.
Qed.







End CartStoreClaims.

Section CartStoreExamples.

Import CartStore CartScenarios.

(** Setting the quantity of the pickle to zero removes it, on the server
    and in the store. *)
Lemma updateQuantity_nonpositive_is_removeFromCart_witness :
  nleb (0 # 1) (lit (0 # 1)) = true
  /\ updateQuantity document_services "p1" (0 # 1) basket
     = removeFromCart document_services "p1" basket
  /\ cart (store (updateQuantity document_services "p1" (0 # 1) basket)) = [honey].
Proof.
  split; [reflexivity |]. split.
  - apply (updateQuantity_nonpositive_is_removeFromCart
             document_services basket "p1" (0 # 1)).
    reflexivity.
  - reflexivity.
Defined.

(** With the methods undefined, as the sources have them, both calls end in
    the same error state. *)
Example updateQuantity_undefined_services :
  updateQuantity undefined_services "p1" (0 # 1) basket
  = removeFromCart undefined_services "p1" basket
  /\ error (store (updateQuantity undefined_services "p1" (0 # 1) basket))
     = Some "businessLogicService.removeFromCart is not a function".
Proof. split; reflexivity. Qed.

(** Totals of a basket of 340 (tax 27.2, shipping 50) and of one of 790
    (tax 63.2, free shipping), in exact arithmetic. *)
Example totals_of_baskets :
  returned_Q (getSubtotal basket) = 340 # 1
  /\ returned_Q (getTax basket) = 136 # 5
  /\ returned_Q (getShipping basket) = 50 # 1
  /\ returned_Q (getGrandTotal basket) = 2086 # 5
  /\ returned_Q (getShipping big_basket) = 0 # 1
  /\ returned_Q (getGrandTotal big_basket) = 4266 # 5.
Proof. vm_compute. repeat split. Qed.



(** [loadCart] with services that answer: three listeners are opened in
    turn and the last one alone is live.  With the session check undefined,
    as the sources have it, [loadCart] ends in its [catch] and opens none. *)
Example loadCart_listeners :
  listeners (loadCart document_services basket) = {[2%nat := "u1"]}
  /\ log (loadCart document_services basket)
     = [Opened 0 "u1"; Cancelled 0; Opened 1 "u1"; Cancelled 1; Opened 2 "u1"]
  /\ listeners (loadCart undefined_services basket) = ∅
  /\ error (store (loadCart undefined_services basket))
     = Some "sessionValidationService.validateActiveSession is not a function".
Proof. repeat split. Qed.

End CartStoreExamples.

(** * Further properties of the session validation service *)

Section SessionValidationMore.

Import SessionValidation Scenarios.

Implicit Types (w : World) (k u r : string).

(** *** Cache keys *)

Lemma append_char_cons (c : ascii) (a : ascii) (s t : string) :
  (String a s ++ String c t = String a (s ++ String c t))%string.
Proof. reflexivity. Qed.

(** A string is cut in one way only at the first occurrence of a
    character. *)
Lemma split_at_char (c : ascii) (s1 s2 t1 t2 : string) :
  char_free c s1 = true ->
  char_free c s2 = true ->
  (s1 ++ String c t1 = s2 ++ String c t2)%string ->
  s1 = s2 /\ t1 = t2.
Proof.
  revert s2. induction s1 as [|a s1 IH]; intros [|b s2] H1 H2 Heq.
  - by injection Heq as ->.
  - rewrite append_char_cons in Heq. injection Heq as <- _.
    simpl in H2. by rewrite Ascii.eqb_refl in H2.
  - rewrite append_char_cons in Heq. injection Heq as -> _.
    simpl in H1. by rewrite Ascii.eqb_refl in H1.
  - rewrite !append_char_cons in Heq. injection Heq as -> Heq.
    simpl in H1, H2.
    apply andb_true_iff in H1 as [_ H1]. apply andb_true_iff in H2 as [_ H2].
    destruct (IH s2 H1 H2 Heq) as [-> ->]. done.
Qed.

Lemma cacheKey_cut u r : cacheKey u r = (u ++ String "_" r)%string.
Proof. reflexivity. Qed.

Lemma cacheKey_inj_plain u1 u2 r1 r2 :
  char_free "_" u1 = true ->
  char_free "_" u2 = true ->
  cacheKey u1 r1 = cacheKey u2 r2 ->
  u1 = u2 /\ r1 = r2.
Proof. rewrite !cacheKey_cut. apply split_at_char. Qed.

(** X1.  Two subjects whose uids hold no underscore never share a cache
    key: equal keys mean the same uid and the same required role. *)
Theorem cacheKey_injective u1 u2 r1 r2 :
  char_free "_" u1 = true ->
  char_free "_" u2 = true ->
  cacheKey u1 r1 = cacheKey u2 r2 ->
  u1 = u2 /\ r1 = r2.
Proof. apply cacheKey_inj_plain. Qed.

Lemma cacheKey_injective_witness :
  ("u1" = "u1" /\ "admin" = "admin")
  /\ cacheKey "a" "b_c" = cacheKey "a_b" "c".
Proof.
  split; [| reflexivity].
  exact (cacheKey_injective "u1" "u1" "admin" "admin" eq_refl eq_refl eq_refl).
Defined.

(** *** Sound verdicts *)

Lemma cache_hit_lookup w key e :
  cache_hit w key = Some e -> sessionCache w !! key = Some e.
Proof.
  unfold cache_hit. destruct (sessionCache w !! key) as [e'|]; [| done].
  by destruct (Z.ltb _ _).
Qed.

(** What a call of [validateUserRole] leaves behind: the world as it was
    (cache hit, or nobody signed in), or one read later, with at most one
    new verdict, computed from the record read. *)
Lemma validateUserRole_world r w :
  snd (validateUserRole r w) = w
  \/ exists uid,
       currentUser w = Some uid
       /\ (snd (validateUserRole r w)
           = mkWorld (currentUser w) (users w) (sessionCache w)
                     (now w + latency w) (latency w) (S (reads w))
           \/ exists d,
                users w !! uid = Some d
                /\ snd (validateUserRole r w)
                   = mkWorld (currentUser w) (users w)
                       (<[cacheKey uid r :=
                            mkEntry (String.eqb (role d) r) d (now w + latency w)]>
                          (sessionCache w))
                       (now w + latency w) (latency w) (S (reads w))).
Proof.
  unfold validateUserRole. destruct (currentUser w) as [uid|] eqn:Hu; [| by left].
  simpl. destruct (cache_hit w (cacheKey uid r)) as [e|].
  { left. by destruct (hasPermission e). }
  right. exists uid. split; [done |].
  unfold bind, getDoc_users, throw, ret, modify. simpl.
  destruct (users w !! uid) as [d|] eqn:Hd; [| left; simpl; by rewrite Hu].
  destruct (suspended d); [left; simpl; by rewrite Hu |].
  destruct (deactivated d); [left; simpl; by rewrite Hu |].
  right. exists d. split; [done |]. simpl.
  destruct (String.eqb (role d) r); simpl; by rewrite Hu.
Qed.

Lemma validateUserRole_sound r w :
  plain_uid (currentUser w) = true ->
  cache_sound w -> cache_sound (snd (validateUserRole r w)).
Proof.
  intros Hplain Hsound.
  destruct (validateUserRole_world r w) as [-> | (uid & Hu & [-> | (d & Hd & ->)])];
    [done | done |].
  intros key e. simpl. rewrite lookup_insert. case_decide as Hkey.
  - intros [= <-]. exists uid, r. rewrite Hu in Hplain. by subst.
  - apply Hsound.
Qed.

Lemma validateUserRole_user r w :
  currentUser (snd (validateUserRole r w)) = currentUser w.
Proof.
  destruct (validateUserRole_world r w) as [-> | (uid & Hu & [-> | (d & Hd & ->)])];
    done.
Qed.

Lemma checkPermission_world action resource w :
  snd (checkPermission action resource w) = snd (validateUserRole "admin" w).
Proof.
  unfold checkPermission, bind.
  destruct (validateUserRole "admin" w) as [[d | msg] w']; [| done].
  by destruct (includes _ _).
Qed.

Lemma clearCache_sound o w : cache_sound w -> cache_sound (clearCache o w).
Proof.
  intros Hsound key e. destruct o as [u|].
  - rewrite clearCache_lookup. destruct (String.prefix u key); [done |].
    apply Hsound.
  - simpl. by rewrite lookup_empty.
Qed.

Lemma clearCache_user o w : currentUser (clearCache o w) = currentUser w.
Proof.
  destruct o as [u|]; [| done]. unfold clearCache. by destruct (truthy_string u).
Qed.

Lemma session_reachable_sound w :
  session_reachable w -> plain_uid (currentUser w) = true /\ cache_sound w.
Proof.
  induction 1 as [u docs t d Hu | a w _ [IHu IHs] Ha].
  - split; [done |]. intros key e. simpl. by rewrite lookup_empty.
  - destruct a as [r | action resource | o | u docs t d]; simpl.
    + split; [by rewrite validateUserRole_user | by apply validateUserRole_sound].
    + rewrite checkPermission_world.
      split; [by rewrite validateUserRole_user | by apply validateUserRole_sound].
    + split; [by rewrite clearCache_user | by apply clearCache_sound].
    + split; [done |]. intros key e. apply IHs.
Qed.

(** With sound verdicts and a plain uid, a returned record has the required
    role. *)
Lemma sound_returns_role r w d :
  plain_uid (currentUser w) = true ->
  cache_sound w ->
  fst (validateUserRole r w) = Returns d ->
  role d = r.
Proof.
  intros Hplain Hsound. unfold validateUserRole.
  destruct (currentUser w) as [uid|] eqn:Hu; [| done]. simpl in *.
  destruct (cache_hit w (cacheKey uid r)) as [e|] eqn:Hhit.
  - destruct (hasPermission e) eqn:Hp; [| done]. simpl. intros [= <-].
    destruct (Hsound _ _ (cache_hit_lookup _ _ _ Hhit)) as (uid' & r' & Hkey & Hplain' & He).
    destruct (cacheKey_inj_plain _ _ _ _ Hplain Hplain' Hkey) as [_ <-].
    apply String.eqb_eq. congruence.
  - unfold bind, getDoc_users, throw, ret, modify. simpl.
    destruct (users w !! uid) as [d'|]; [| done].
    destruct (suspended d'); [done |].
    destruct (deactivated d'); [done |].
    simpl. destruct (String.eqb (role d') r) eqn:Hr; [| done].
    simpl. intros [= <-]. by apply String.eqb_eq.
Qed.

(** X2.  Starting from an empty cache, through any calls of the service,
    sign-ins of plain uids, changes of the user documents and of the clock:
    whenever [validateUserRole(requiredRole)] returns a user record, the
    record's role is the required role. *)
Theorem validateUserRole_returns_required_role w r d :
  session_reachable w ->
  fst (validateUserRole r w) = Returns d ->
  role d = r.
Proof.
  intros Hw. destruct (session_reachable_sound w Hw) as [Hplain Hsound].
  by apply sound_returns_role.
Qed.

Lemma validateUserRole_returns_required_role_witness :
  session_reachable admin_checked
  /\ fst (validateUserRole "admin" admin_checked) = Returns administrator
  /\ role administrator = "admin".
Proof.
  assert (Hreach : session_reachable admin_checked).
  { apply (session_step (CallValidateUserRole "admin")); [| done].
    by apply session_start. }
  split; [exact Hreach |]. split; [reflexivity |].
  exact (validateUserRole_returns_required_role admin_checked "admin"
           administrator Hreach eq_refl).
Defined.

(** X3.  In every world reached from an empty cache: [checkPermission]
    returns only [true], only for an action that the matrix lists for the
    resource under the administrator role, and only when its role check
    answered with a record whose role is the administrator's (read now, or
    cached within the time-to-live).  Without a fresh cache entry a subject
    whose user document is missing or names another role is refused; with
    a fresh entry the answer is the one the entry's verdict gives; with
    nobody signed in the call is refused. *)
Theorem checkPermission_grants_admin_actions_only w action resource :
  session_reachable w ->
  (forall b,
     fst (checkPermission action resource w) = Returns b ->
     b = true
     /\ includes (matrix_actions "admin" resource) action = true
     /\ exists d, fst (validateUserRole "admin" w) = Returns d
                  /\ role d = "admin")
  /\ (forall uid,
        currentUser w = Some uid ->
        cache_hit w (cacheKey uid "admin") = None ->
        (forall d, users w !! uid = Some d -> role d <> "admin") ->
        is_returns (fst (checkPermission action resource w)) = false)
  /\ (forall uid e,
        currentUser w = Some uid ->
        cache_hit w (cacheKey uid "admin") = Some e ->
        role (userData e) = "admin" \/ hasPermission e = false)
  /\ (forall uid e,
        currentUser w = Some uid ->
        cache_hit w (cacheKey uid "admin") = Some e ->
        hasPermission e = false ->
        checkPermission action resource w = (Throws "Insufficient permissions", w))
  /\ (currentUser w = None ->
      checkPermission action resource w = (Throws "User not authenticated", w)).
Proof.
  intros Hw. destruct (session_reachable_sound w Hw) as [Hplain Hsound].
  split; [| split; [| split; [| split]]].
  - intros b. unfold checkPermission, bind.
    destruct (validateUserRole "admin" w) as [[d | msg] w'] eqn:Hv; [| done].
    assert (Hrole : role d = "admin")
      by (apply (sound_returns_role "admin" w d Hplain Hsound); by rewrite Hv).
    rewrite Hrole.
    destruct (includes (matrix_actions "admin" resource) action); [| done].
    simpl. intros [= <-]. split; [done |]. split; [done |]. by exists d.
  - intros uid Hu Hmiss Hother. unfold checkPermission, bind, validateUserRole.
    rewrite Hu. simpl. rewrite Hmiss.
    unfold bind, getDoc_users, throw, ret, modify. simpl.
    destruct (users w !! uid) as [d|] eqn:Hd; [| done].
    destruct (suspended d); [done |].
    destruct (deactivated d); [done |]. simpl.
    destruct (String.eqb_spec (role d) "admin") as [Hr | Hr]; [| done].
    by destruct (Hother d eq_refl).
  - intros uid e Hu Hhit.
    destruct (hasPermission e) eqn:Hp; [left | by right].
    apply (sound_returns_role "admin" w (userData e) Hplain Hsound).
    rewrite (validateUserRole_hit w uid "admin" e Hu Hhit). by rewrite Hp.
  - intros uid e Hu Hhit Hp. unfold checkPermission, bind.
    rewrite (validateUserRole_hit w uid "admin" e Hu Hhit). by rewrite Hp.
  - intros Hu. unfold checkPermission, bind, validateUserRole. by rewrite Hu.
Qed.

(** The administrator may delete orders; the customer, whose document is
    read at the call, is refused. *)
Lemma checkPermission_grants_admin_actions_only_witness :
  session_reachable admin_checked
  /\ fst (checkPermission "delete" (Some "orders") admin_checked) = Returns true
  /\ includes (matrix_actions "admin" (Some "orders")) "delete" = true
  /\ session_reachable customer_world
  /\ is_returns (fst (checkPermission "read" (Some "orders") customer_world)) = false.
Proof.
  assert (Hreach : session_reachable admin_checked).
  { apply (session_step (CallValidateUserRole "admin")); [| done].
    by apply session_start. }
  assert (Hcustomer : session_reachable customer_world) by (by apply session_start).
  split; [exact Hreach |]. split; [reflexivity |].
  split.
  - exact (proj1 (proj2 (proj1 (checkPermission_grants_admin_actions_only
                                  admin_checked "delete" (Some "orders") Hreach)
                           true eq_refl))).
  - split; [exact Hcustomer |].
    refine (proj1 (proj2 (checkPermission_grants_admin_actions_only customer_world
                            "read" (Some "orders") Hcustomer))
              "u1" eq_refl eq_refl _).
    intros d Hd. vm_compute in Hd. injection Hd as <-. discriminate.
Defined.

(** *** Staleness *)

(** X4.  A verdict outlives changes of the system of record.  When a check
    without a fresh entry reads a record in good standing, then for the
    whole time-to-live of the entry it cached the same subject's check for
    the same role answers from that entry, without a read and whatever the
    user documents have become meanwhile: the record as it was read when the roles
    matched, the permission error when they did not. *)
Theorem cached_verdict_outlives_record_changes w uid r d docs t :
  currentUser w = Some uid ->
  cache_hit w (cacheKey uid r) = None ->
  users w !! uid = Some d ->
  suspended d = false ->
  deactivated d = false ->
  t - (now w + latency w) < cacheTimeout ->
  let w1 := snd (validateUserRole r w) in
  let w2 := mkWorld (Some uid) docs (sessionCache w1) t (latency w1) (reads w1) in
  validateUserRole r w2
  = (if String.eqb (role d) r then Returns d
     else Throws "Insufficient permissions", w2).
Proof.
  intros Hu Hmiss Hd Hs Hde Ht w1 w2. subst w2 w1.
  rewrite (validateUserRole_miss_caches w uid r d Hu Hmiss Hd Hs Hde). simpl.
  apply (validateUserRole_hit _ uid r
           (mkEntry (String.eqb (role d) r) d (now w + latency w))); [done |].
  apply cache_hit_Some; simpl; [apply lookup_insert_eq | done].
Qed.

(** The customer is refused as administrator, is promoted in the system of
    record, and one minute later is still refused, without a read. *)
Lemma cached_verdict_outlives_record_changes_witness :
  let w1 := snd (validateUserRole "admin" customer_world) in
  let w2 := mkWorld (Some "u1") promoted_customer (sessionCache w1) 60000
                    (latency w1) (reads w1) in
  validateUserRole "admin" w2 = (Throws "Insufficient permissions", w2).
Proof.
  exact (cached_verdict_outlives_record_changes customer_world "u1" "admin"
           customer promoted_customer 60000
           eq_refl eq_refl eq_refl eq_refl eq_refl eq_refl).
Defined.

(** *** Invalidation *)

Lemma clearCache_set o w :
  clearCache o w = set_cache (sessionCache (clearCache o w)) w.
Proof.
  destruct o as [u|]; [| done]. unfold clearCache. by destruct (truthy_string u).
Qed.

Lemma clearCache_lookup_any o w k :
  sessionCache (clearCache o w) !! k
  = if from_option (fun u => String.prefix u k) true o then None
    else sessionCache w !! k.
Proof.
  destruct o as [u|]; simpl; [apply clearCache_lookup | apply lookup_empty].
Qed.

Lemma clearCache_rest o w : set_cache ∅ (clearCache o w) = set_cache ∅ w.
Proof. by rewrite (clearCache_set o w). Qed.

Lemma world_cache_ext w1 w2 :
  set_cache ∅ w1 = set_cache ∅ w2 ->
  sessionCache w1 = sessionCache w2 ->
  w1 = w2.
Proof.
  destruct w1, w2. unfold set_cache. simpl. intros [= -> -> -> -> ->] ->. done.
Qed.

(** X5.  Invalidating twice with the same argument is the same as once,
    and two invalidations give the same world in either order. *)
Theorem clearCache_idempotent_and_commutes (o1 o2 : option string) w :
  clearCache o1 (clearCache o1 w) = clearCache o1 w
  /\ clearCache o1 (clearCache o2 w) = clearCache o2 (clearCache o1 w).
Proof.
  split; apply world_cache_ext; rewrite ?clearCache_rest; try done;
    apply map_eq; intros k; rewrite !clearCache_lookup_any.
  - by destruct (from_option _ _ o1).
  - by destruct (from_option _ _ o1), (from_option _ _ o2).
Qed.

(** A check sees the cache only through the entry under its own key. *)
Lemma validateUserRole_same_entry r w uid (c : gmap string CacheEntry) :
  currentUser w = Some uid ->
  c !! cacheKey uid r = sessionCache w !! cacheKey uid r ->
  fst (validateUserRole r (set_cache c w)) = fst (validateUserRole r w)
  /\ reads (snd (validateUserRole r (set_cache c w)))
     = reads (snd (validateUserRole r w)).
Proof.
  intros Hu Hc. unfold validateUserRole. simpl. rewrite Hu. simpl.
  assert (cache_hit (set_cache c w) (cacheKey uid r) = cache_hit w (cacheKey uid r))
    as -> by (unfold cache_hit; simpl; by rewrite Hc).
  destruct (cache_hit w (cacheKey uid r)) as [e|].
  { by destruct (hasPermission e). }
  unfold bind, getDoc_users, throw, ret, modify. simpl.
  destruct (users w !! uid) as [d|]; [| done].
  destruct (suspended d); [done |].
  destruct (deactivated d); [done |].
  simpl. by destruct (String.eqb (role d) r).
Qed.

(** X6.  Invalidating one subject costs no other subject a read: a check
    whose cache key does not start with the invalidated id has the same
    outcome, and reads the system of record as often, as without the
    invalidation. *)
Theorem clearCache_spares_other_keys w u uid r :
  currentUser w = Some uid ->
  String.prefix u (cacheKey uid r) = false ->
  fst (validateUserRole r (clearCache (Some u) w)) = fst (validateUserRole r w)
  /\ reads (snd (validateUserRole r (clearCache (Some u) w)))
     = reads (snd (validateUserRole r w)).
Proof.
  intros Hu Hk. rewrite (clearCache_set (Some u) w).
  apply (validateUserRole_same_entry r w uid); [done |].
  by rewrite clearCache_lookup, Hk.
Qed.

(** Invalidating [v] leaves the cached refusal of [u1] in place. *)
Lemma clearCache_spares_other_keys_witness :
  fst (validateUserRole "admin" (clearCache (Some "v") three_subjects))
  = Throws "Insufficient permissions"
  /\ reads (snd (validateUserRole "admin" (clearCache (Some "v") three_subjects)))
     = 3%nat.
Proof.
  exact (clearCache_spares_other_keys three_subjects "v" "u1" "admin"
           eq_refl eq_refl).
Defined.

End SessionValidationMore.

(** * Further properties of the business logic service *)

Section BusinessLogicMore.

Import SessionValidation BusinessLogic OrderScenarios.

Local Abbreviation stock_update :=
  (fun item => UpdateQuantityAvailable (item_id item)
                 (item_quantityAvailable item - item_quantity item)).

(** *** Loops that only read *)






(** *** The batch *)

Lemma apply_updates_frame (its : list Item) (db db' : Db) :
  apply_writes (map stock_update its) db = Some db' ->
  db_users db' = db_users db
  /\ orders db' = orders db
  /\ confirmations db' = confirmations db
  /\ searchIndex db' = searchIndex db
  /\ (forall pid, is_Some (products db' !! pid) <-> is_Some (products db !! pid)).
Proof.
  revert db. induction its as [|it rest IH]; intros db Hw; simpl in *.
  - by injection Hw as <-.
  - destruct (products db !! item_id it) as [p|] eqn:Hp; [| done].
    destruct (IH _ Hw) as (-> & -> & -> & -> & Hdom). repeat split; try done;
      rewrite Hdom; simpl; rewrite lookup_insert; case_decide; subst; try done;
      intros _; by eexists.
Qed.



(** X8.  A call of [processOrder] that returns has stored the order under
    the generated id, logged one confirmation mail for it, kept the user
    documents and the search index, created and deleted no product, and
    left every product that the order does not name as it was. *)
Theorem processOrder_success_effects env orderData uid db result :
  fst (processOrder env orderData uid db) = Returns result ->
  let db' := snd (processOrder env orderData uid db) in
  orders db' = <[env_docId env := order_of env orderData uid]> (orders db)
  /\ confirmations db' = (confirmations db ++ [order_of env orderData uid])%list
  /\ db_users db' = db_users db
  /\ searchIndex db' = searchIndex db
  /\ (forall pid, is_Some (products db' !! pid) <-> is_Some (products db !! pid))
  /\ (forall pid, pid ∉ map item_id (items orderData) ->
                  products db' !! pid = products db !! pid).
Proof.
  unfold processOrder, bind.
  pose proof (processOrder_checks_reads_only env orderData uid db) as Hsame.
  destruct (processOrder_checks env orderData uid db) as [[[] | msg] d];
    simpl in *; subst; [| done].
  unfold processOrder_write, try_catch, bind, commit, batch_of,
    sendOrderConfirmation, reject_if.
  destruct (commitFails env) as [m|]; simpl; [done |].
  destruct (apply_writes _ _) as [db2|] eqn:Hw; [| done].
  destruct (sendOrderConfirmationFails env) as [m|]; simpl; [done |].
  intros _.
  destruct (apply_updates_frame _ _ _ Hw) as (Hu & Ho & Hc & Hi & Hdom).
  simpl in Hu, Ho, Hc, Hi, Hdom.
  split; [exact Ho |]. split; [simpl; by rewrite Hc |].
  split; [exact Hu |]. split; [exact Hi |]. split; [exact Hdom |].
  intros pid Hpid. simpl. by rewrite (apply_updates_other _ _ _ _ Hw Hpid).
Qed.

Lemma processOrder_success_effects_witness :
  let db' := snd (processOrder (calm "o1" "k3x9q0a1b") (one_pickle 5) "u1" (shop 5)) in
  is_Some (orders db' !! "o1")
  /\ products db' !! "p2" = products (shop 5) !! "p2".
Proof.
  destruct (processOrder_success_effects (calm "o1" "k3x9q0a1b") (one_pickle 5)
              "u1" (shop 5) _ eq_refl) as (Ho & _ & _ & _ & _ & Hother).
  split.
  - rewrite Ho, lookup_insert_eq. by eexists.
  - apply Hother. simpl. apply not_elem_of_cons. split; [done |].
    apply not_elem_of_nil.
Defined.

(** X9.  When the confirmation mail is not rejected, a call of
    [processOrder] that throws has written nothing. *)
Theorem processOrder_failure_writes_nothing env orderData uid db msg :
  sendOrderConfirmationFails env = None ->
  fst (processOrder env orderData uid db) = Throws msg ->
  snd (processOrder env orderData uid db) = db.
Proof.
  intros Hmail. unfold processOrder, bind.
  pose proof (processOrder_checks_reads_only env orderData uid db) as Hsame.
  destruct (processOrder_checks env orderData uid db) as [[[] | m] d];
    simpl in *; subst; [| done].
  unfold processOrder_write, try_catch, bind, commit, batch_of,
    sendOrderConfirmation, reject_if.
  rewrite Hmail.
  destruct (commitFails env) as [m|]; simpl; [done |].
  by destruct (apply_writes _ _) as [db2|].
Qed.

Lemma processOrder_failure_writes_nothing_witness :
  fst (processOrder (commit_down "o1" "k3x9q0a1b") (one_pickle 5) "u1" (shop 5))
  = Throws "Failed to process order: UNAVAILABLE"
  /\ snd (processOrder (commit_down "o1" "k3x9q0a1b") (one_pickle 5) "u1" (shop 5))
     = shop 5.
Proof.
  split; [reflexivity |].
  exact (processOrder_failure_writes_nothing (commit_down "o1" "k3x9q0a1b")
           (one_pickle 5) "u1" (shop 5) _ eq_refl eq_refl).
Defined.


(** *** Products *)

Lemma syncProductToSearch_products env pid db :
  fst (syncProductToSearch env pid db) = Returns tt
  /\ products (snd (syncProductToSearch env pid db)) = products db
  /\ db_users (snd (syncProductToSearch env pid db)) = db_users db
  /\ orders (snd (syncProductToSearch env pid db)) = orders db.
Proof.
  unfold syncProductToSearch, try_catch, bind, reject_if, modify, throw, ret.
  by destruct (indexProductFails env).
Qed.

(** X10.  The search index cannot make a product call fail or change what
    it stores: whether the index call is rejected or not, [createProduct]
    and [updateProduct] have the same outcome and leave the same products. *)
Theorem product_calls_ignore_search_index (f : option string) env
    (updateDocFails : option string) (pid : string) (p : ProductData)
    (userRole : string) db :
  fst (createProduct (with_indexProductFails f env) p userRole db)
  = fst (createProduct env p userRole db)
  /\ products (snd (createProduct (with_indexProductFails f env) p userRole db))
     = products (snd (createProduct env p userRole db))
  /\ fst (updateProduct (with_indexProductFails f env) updateDocFails pid p userRole db)
     = fst (updateProduct env updateDocFails pid p userRole db)
  /\ products (snd (updateProduct (with_indexProductFails f env) updateDocFails
                       pid p userRole db))
     = products (snd (updateProduct env updateDocFails pid p userRole db)).
Proof.
  assert (Hsync : forall e i d,
             fst (syncProductToSearch e i d) = Returns tt
             /\ products (snd (syncProductToSearch e i d)) = products d)
    by (intros e i d; by destruct (syncProductToSearch_products e i d) as (? & ? & _)).
  split; [| split; [| split]].
  - unfold createProduct, try_catch, bind, lift, reject_if, modify, throw, ret.
    destruct (negb _); [done |]. simpl.
    destruct (validateProductData p) as [[] | m]; [| done].
    destruct (addDocFails env); [done |].
    destruct (initializeInventoryFails env); [done |].
    destruct (Hsync (with_indexProductFails f env) (env_docId env)
                (set_products (<[env_docId env :=
                   mkProductDoc p (env_now env) (env_now env) true false 0 0]>
                   (products db)) db)) as [H1 _].
    destruct (Hsync env (env_docId env)
                (set_products (<[env_docId env :=
                   mkProductDoc p (env_now env) (env_now env) true false 0 0]>
                   (products db)) db)) as [H2 _].
    destruct (syncProductToSearch (with_indexProductFails f env) _ _) as [[[] | ?] ?];
      destruct (syncProductToSearch env _ _) as [[[] | ?] ?]; done.
  - unfold createProduct, try_catch, bind, lift, reject_if, modify, throw, ret.
    destruct (negb _); [done |]. simpl.
    destruct (validateProductData p) as [[] | m]; [| done].
    destruct (addDocFails env); [done |].
    destruct (initializeInventoryFails env); [done |].
    destruct (Hsync (with_indexProductFails f env) (env_docId env)
                (set_products (<[env_docId env :=
                   mkProductDoc p (env_now env) (env_now env) true false 0 0]>
                   (products db)) db)) as [H1 H1'].
    destruct (Hsync env (env_docId env)
                (set_products (<[env_docId env :=
                   mkProductDoc p (env_now env) (env_now env) true false 0 0]>
                   (products db)) db)) as [H2 H2'].
    destruct (syncProductToSearch (with_indexProductFails f env) _ _) as [[[] | ?] ?];
      destruct (syncProductToSearch env _ _) as [[[] | ?] ?]; simpl in *;
      try done; congruence.
  - unfold updateProduct, validateUserPermissions, updateDoc_product, try_catch,
      bind, throw, ret.
    destruct (negb _); [done |]. simpl.
    destruct updateDocFails; [done |].
    destruct (products db !! pid) as [old|]; [| done].
    match goal with
    | |- context [syncProductToSearch (with_indexProductFails f env) ?i ?d] =>
        destruct (Hsync (with_indexProductFails f env) i d) as [H1 _];
        destruct (Hsync env i d) as [H2 _];
        destruct (syncProductToSearch (with_indexProductFails f env) i d)
          as [[[] | ?] ?];
        destruct (syncProductToSearch env i d) as [[[] | ?] ?]
    end; done.
  - unfold updateProduct, validateUserPermissions, updateDoc_product, try_catch,
      bind, throw, ret.
    destruct (negb _); [done |]. simpl.
    destruct updateDocFails; [done |].
    destruct (products db !! pid) as [old|]; [| done].
    match goal with
    | |- context [syncProductToSearch (with_indexProductFails f env) ?i ?d] =>
        destruct (Hsync (with_indexProductFails f env) i d) as [H1 H1'];
        destruct (Hsync env i d) as [H2 H2'];
        destruct (syncProductToSearch (with_indexProductFails f env) i d)
          as [[[] | ?] ?];
        destruct (syncProductToSearch env i d) as [[[] | ?] ?]
    end; simpl in *; try done; congruence.
Qed.

(** [syncProductToSearch] spelled out. *)
Lemma syncProductToSearch_eq env pid db :
  syncProductToSearch env pid db
  = (Returns tt,
     match indexProductFails env with
     | Some _ => db
     | None => add_indexed pid db
     end).
Proof.
  unfold syncProductToSearch, try_catch, bind, reject_if, modify, throw, ret.
  by destruct (indexProductFails env).
Qed.

(** X11.  [createProduct] returns exactly for an administrator whose data
    pass [validateProductData], when neither the document write nor the
    inventory set-up is rejected; the product it then returns is the one it
    stored under the generated document id: the given data, active, not
    featured, unrated and unreviewed. *)
Theorem createProduct_returns_iff env (p : ProductData) (userRole : string) db :
  let product := mkProductDoc p (env_now env) (env_now env) true false 0 0 in
  (is_returns (fst (createProduct env p userRole db)) = true
   <-> userRole = "admin"
       /\ validateProductData p = Returns tt
       /\ addDocFails env = None
       /\ initializeInventoryFails env = None)
  /\ (forall result,
        fst (createProduct env p userRole db) = Returns result ->
        snd result = product
        /\ products (snd (createProduct env p userRole db))
           = <[env_docId env := product]> (products db)).
Proof.
  intros product. unfold createProduct, try_catch, bind, lift, reject_if, modify,
    throw, ret.
  destruct (String.eqb_spec userRole "admin") as [-> | Hrole]; simpl.
  2:{ split; [| done]. split; [done | by intros [? _]]. }
  destruct (validateProductData p) as [[] | m]; simpl.
  2:{ split; [| done]. split; [done | by intros (_ & ? & _)]. }
  destruct (addDocFails env); simpl.
  { split; [| done]. split; [done | by intros (_ & _ & ? & _)]. }
  destruct (initializeInventoryFails env); simpl.
  { split; [| done]. split; [done | by intros (_ & _ & _ & ?)]. }
  rewrite syncProductToSearch_eq. simpl. split; [done |].
  intros result [= <-]. split; [done |]. by destruct (indexProductFails env).
Qed.

Lemma createProduct_returns_iff_witness :
  products (snd (createProduct (calm "p9" "") stocked_tea "admin" (shop 1))) !! "p9"
  = Some (mkProductDoc stocked_tea 1700000000000 1700000000000 true false 0 0)
  /\ validateProductData stocked_tea = Returns tt.
Proof.
  split.
  - rewrite (proj2 (proj2 (createProduct_returns_iff (calm "p9" "") stocked_tea
                             "admin" (shop 1)) _ eq_refl)).
    apply lookup_insert_eq.
  - exact (proj1 (proj2 (proj1 (proj1 (createProduct_returns_iff (calm "p9" "")
                                          stocked_tea "admin" (shop 1)))
                           eq_refl))).
Defined.

(** X12.  A call of [createProduct] that throws has written nothing unless
    it is the inventory set-up that was rejected; in that case the product
    document written just before stays in the store although the call
    reports a failure. *)
Theorem createProduct_failure_effects env (p : ProductData) (userRole : string) db :
  (forall msg,
     initializeInventoryFails env = None ->
     fst (createProduct env p userRole db) = Throws msg ->
     snd (createProduct env p userRole db) = db)
  /\ (forall msg,
        userRole = "admin" ->
        validateProductData p = Returns tt ->
        addDocFails env = None ->
        initializeInventoryFails env = Some msg ->
        fst (createProduct env p userRole db)
        = Throws ("Failed to create product: " ++ msg)
        /\ products (snd (createProduct env p userRole db))
           = <[env_docId env :=
                 mkProductDoc p (env_now env) (env_now env) true false 0 0]>
               (products db)).
Proof.
  split.
  - intros msg Hinv. unfold createProduct, try_catch, bind, lift, reject_if,
      modify, throw, ret.
    destruct (negb _); [done |]. simpl.
    destruct (validateProductData p) as [[] | m]; [| done].
    destruct (addDocFails env); [done |]. rewrite Hinv. simpl.
    by rewrite syncProductToSearch_eq.
  - intros msg -> Hvalid Hadd Hinv. unfold createProduct, try_catch, bind, lift,
      reject_if, modify, throw, ret.
    simpl. by rewrite Hvalid, Hadd, Hinv.
Qed.

Lemma createProduct_failure_effects_witness :
  fst (createProduct (inventory_down "p9" "") stocked_tea "admin" (shop 1))
  = Throws "Failed to create product: inventory offline"
  /\ is_Some (products (snd (createProduct (inventory_down "p9" "") stocked_tea
                               "admin" (shop 1))) !! "p9")
  /\ snd (createProduct (calm "p9" "") out_of_stock_tea "admin" (shop 1)) = shop 1.
Proof.
  destruct (createProduct_failure_effects (inventory_down "p9" "") stocked_tea
              "admin" (shop 1)) as [_ Hkept].
  destruct (Hkept "inventory offline" eq_refl eq_refl eq_refl eq_refl) as [Hthrow Hp].
  split; [exact Hthrow |]. split.
  - rewrite Hp, lookup_insert_eq. by eexists.
  - exact (proj1 (createProduct_failure_effects (calm "p9" "") out_of_stock_tea
                    "admin" (shop 1))
             _ eq_refl eq_refl).
Defined.



(** *** Order numbers *)

(** Decimal numerals hold no dash. *)
Lemma pretty_N_go_dash_free (x : N) (acc : string) :
  char_free "-" acc = true -> char_free "-" (pretty_N_go x acc) = true.
Proof.
  revert acc. induction (N.lt_wf_0 x) as [x _ IH]. intros acc Hacc.
  destruct (decide (x = 0)%N) as [-> | Hx].
  - by rewrite pretty_N_go_0.
  - rewrite pretty_N_go_step by lia. apply IH.
    + apply N.div_lt; lia.
    + simpl. rewrite Hacc, andb_true_r.
      unfold pretty_N_char. by repeat case_match.
Qed.

Lemma pretty_Z_dash_free (z : Z) : 0 <= z -> char_free "-" (pretty z) = true.
Proof.
  destruct z as [|x|x]; intros Hz; [done | | lia].
  unfold pretty, pretty_Z, pretty, pretty_positive, pretty, pretty_N.
  case_decide; [done |]. by apply pretty_N_go_dash_free.
Qed.

Lemma generateOrderNumber_cut env :
  generateOrderNumber env
  = String "O" (String "R" (String "D" (String "-"
      (pretty (env_now env) ++ String "-" (env_random env))))).
Proof. reflexivity. Qed.

(** X14.  Order numbers are as distinct as the instant and the random
    suffix they are built from: with clocks that are not negative, two
    generated order numbers are equal only when both the instant and the
    suffix are. *)
Theorem generateOrderNumber_injective (e1 e2 : Env) :
  0 <= env_now e1 ->
  0 <= env_now e2 ->
  generateOrderNumber e1 = generateOrderNumber e2 ->
  env_now e1 = env_now e2 /\ env_random e1 = env_random e2.
Proof.
  intros H1 H2. rewrite !generateOrderNumber_cut. intros [= Heq].
  apply split_at_char in Heq as [Hnow Hrnd];
    [| by apply pretty_Z_dash_free | by apply pretty_Z_dash_free].
  split; [| done]. by apply (inj pretty).
Qed.

Lemma generateOrderNumber_injective_witness :
  generateOrderNumber (calm "o1" "k3x9q0a1b") = "ORD-1700000000000-k3x9q0a1b"
  /\ (env_now (calm "o1" "k3x9q0a1b") = env_now (calm "o2" "k3x9q0a1b")
      /\ env_random (calm "o1" "k3x9q0a1b") = env_random (calm "o2" "k3x9q0a1b")).
Proof.
  split; [reflexivity |].
  apply (generateOrderNumber_injective (calm "o1" "k3x9q0a1b")
           (calm "o2" "k3x9q0a1b")); [discriminate | discriminate | reflexivity].
Defined.

End BusinessLogicMore.

(** * Further properties of the cart store *)

Section CartStoreMore.

Import CartStore CartScenarios.

Context {num : Type} `{JsNumber num} {Server : Type}.

Implicit Types (w : @World num Server) (svc : @Services num Server)
  (c : list (@CartItem num)) (product item : @CartItem num).

(** *** The local mutation *)

Lemma find_map_same_id (f : @CartItem num -> @CartItem num) c (i : string) :
  (forall item, id (f item) = id item) ->
  find (fun item => String.eqb (id item) i) (map f c)
  = f <$> find (fun item => String.eqb (id item) i) c.
Proof.
  intros Hf. induction c as [|x rest IH]; simpl; [done |].
  rewrite Hf. by destruct (String.eqb (id x) i).
Qed.

Lemma find_snoc (p : @CartItem num -> bool) c item :
  find p (c ++ [item])
  = match find p c with
    | Some x => Some x
    | None => if p item then Some item else None
    end.
Proof.
  induction c as [|x rest IH]; simpl; [done |]. by destruct (p x).
Qed.

Lemma find_None_existsb (p : @CartItem num -> bool) c :
  find p c = None -> forall item, In item c -> p item = false.
Proof. intros Hnone item Hin. by apply (find_none p c). Qed.

(** X15.  After [addToCartLocal(product, qty)] the cart reports for the
    product's id the quantity it reported before plus [qty] when the
    product was in the cart, and [qty] when it was not; for every other id
    it reports what it reported before. *)
Theorem addToCartLocal_getItemQuantity w product (qty : num) :
  fst (getItemQuantity (id product) (addToCartLocal product qty w))
  = Returns
      match find (fun item => String.eqb (id item) (id product)) (cart (store w)) with
      | Some item => nadd (quantity item) qty
      | None => qty
      end
  /\ (forall i,
        i <> id product ->
        fst (getItemQuantity i (addToCartLocal product qty w))
        = fst (getItemQuantity i w)).
Proof.
  unfold getItemQuantity, gets, addToCartLocal. simpl. split.
  - destruct (find _ (cart (store w))) as [found|] eqn:Hfind; simpl.
    + rewrite find_map_same_id, Hfind by (intros item; by destruct (String.eqb _ _)).
      simpl. apply find_some in Hfind as [_ Hid]. by rewrite Hid.
    + rewrite find_snoc, Hfind. simpl. by rewrite String.eqb_refl.
  - intros i Hi.
    destruct (find _ (cart (store w))) as [found|] eqn:Hfind; simpl.
    + rewrite find_map_same_id by (intros item; by destruct (String.eqb _ _)).
      destruct (find (fun item => String.eqb (id item) i) (cart (store w)))
        as [other|] eqn:Hother; simpl; [| done].
      apply find_some in Hother as [_ Hid]. apply String.eqb_eq in Hid.
      destruct (String.eqb_spec (id other) (id product)); [congruence | done].
    + rewrite find_snoc. simpl.
      destruct (find (fun item => String.eqb (id item) i) (cart (store w)));
        [done |].
      destruct (String.eqb_spec (id product) i); [congruence | done].
Qed.

(** X16.  [addToCartLocal] keeps the ids of the cart: a product already in
    the cart changes no id, a new one is appended; so a cart whose ids are
    pairwise distinct stays so. *)
Theorem addToCartLocal_ids w product (qty : num) :
  map id (cart (store (addToCartLocal product qty w)))
  = match find (fun item => String.eqb (id item) (id product)) (cart (store w)) with
    | Some _ => map id (cart (store w))
    | None => (map id (cart (store w)) ++ [id product])%list
    end
  /\ (NoDup (map id (cart (store w))) ->
      NoDup (map id (cart (store (addToCartLocal product qty w))))).
Proof.
  assert (Hids : map id (cart (store (addToCartLocal product qty w)))
    = match find (fun item => String.eqb (id item) (id product)) (cart (store w)) with
      | Some _ => map id (cart (store w))
      | None => (map id (cart (store w)) ++ [id product])%list
      end).
  { unfold addToCartLocal. simpl.
    destruct (find _ (cart (store w))) as [found|]; simpl.
    - rewrite map_map. apply map_ext. intros item. by destruct (String.eqb _ _).
    - by rewrite map_app. }
  split; [exact Hids |].
  intros Hnd. rewrite Hids.
  destruct (find _ (cart (store w))) as [found|] eqn:Hfind; [done |].
  apply NoDup_app. split; [done |]. split; [| apply NoDup_singleton].
  intros i Hi Hi'. apply list_elem_of_singleton in Hi' as ->.
  apply list_elem_of_In, in_map_iff in Hi as (item & Hid & Hin).
  pose proof (find_None_existsb _ _ Hfind item Hin) as Hneq. simpl in Hneq.
  rewrite Hid, String.eqb_refl in Hneq. done.
Qed.

(** X17.  Adding a product that is not in the cart raises the total price
    by its price times the quantity and the item count by the quantity. *)
Theorem addToCartLocal_new_product_totals w product (qty : num) total count :
  find (fun item => String.eqb (id item) (id product)) (cart (store w)) = None ->
  fst (getTotalPrice w) = Returns total ->
  fst (getTotalItems w) = Returns count ->
  fst (getTotalPrice (addToCartLocal product qty w))
  = Returns (nadd total (nmul (price product) qty))
  /\ fst (getTotalItems (addToCartLocal product qty w))
     = Returns (nadd count qty).
Proof.
  intros Hfind. unfold getTotalPrice, getTotalItems, get_cart, bind, gets, ret,
    addToCartLocal. simpl. rewrite Hfind. simpl.
  intros [= <-] [= <-]. by rewrite !fold_left_app.
Qed.

(** *** The subscription and the other methods *)

(** X18.  In every state the store can reach, [unsubscribeFromCart] leaves
    no listener live and no cancellation function held; it calls the held
    cancellation function, if there is one, and nothing else, so a second
    call changes nothing. *)
Theorem unsubscribeFromCart_leaves_none_live svc w :
  reachable svc w ->
  listeners (unsubscribeFromCart w) = ∅
  /\ unsubscribe (store (unsubscribeFromCart w)) = None
  /\ log (unsubscribeFromCart w)
     = (log w ++ match unsubscribe (store w) with
                 | Some h => [Cancelled h]
                 | None => []
                 end)%list
  /\ unsubscribeFromCart (unsubscribeFromCart w) = unsubscribeFromCart w.
Proof.
  intros Hw. pose proof (owned_listeners_cancelled w (reachable_owns svc w Hw)) as Hnone.
  unfold unsubscribeFromCart.
  destruct (unsubscribe (store w)) as [h|] eqn:Hh; simpl.
  - done.
  - rewrite Hh, app_nil_r. by rewrite Hnone.
Qed.

(** X19.  The cart mutations, [clearError] and the first stretch of
    [loadCart] never touch the subscription: the live listeners, the
    listener counter, the listener log and the held cancellation function
    are after each of them what they were before. *)
Theorem mutations_keep_subscription svc w product (qty : num) (i : string) :
  subscription_state (addToCart svc product qty w) = subscription_state w
  /\ subscription_state (updateQuantity svc i qty w) = subscription_state w
  /\ subscription_state (removeFromCart svc i w) = subscription_state w
  /\ subscription_state (clearCart svc w) = subscription_state w
  /\ subscription_state (addToCartLocal product qty w) = subscription_state w
  /\ subscription_state (clearError w) = subscription_state w
  /\ subscription_state (loadCart_begin w) = subscription_state w.
Proof.
  assert (Hremove : subscription_state (removeFromCart svc i w) = subscription_state w).
  { unfold removeFromCart. destruct (currentUser w); [| done].
    by destruct (svc_removeFromCart _ _ _ _) as [[c | msg] sv]. }
  repeat split.
  - unfold addToCart. destruct (currentUser w); [| done].
    by destruct (svc_addToCart _ _ _ _ _) as [[c | msg] sv].
  - unfold updateQuantity. destruct (currentUser w) eqn:Hu; [| done].
    destruct (nleb qty (lit 0)); [exact Hremove |].
    by destruct (svc_updateCartQuantity _ _ _ _ _) as [[c | msg] sv].
  - exact Hremove.
  - unfold clearCart. destruct (currentUser w); [| done].
    by destruct (svc_clearCart _ _ _) as [[c | msg] sv].
  - unfold addToCartLocal, subscription_state. simpl.
    by destruct (find _ _).
  - unfold loadCart_begin. by destruct (currentUser w).
Qed.

Lemma subscribeToCart_store w :
  cart (store (subscribeToCart w)) = cart (store w)
  /\ loading (store (subscribeToCart w)) = loading (store w)
  /\ error (store (subscribeToCart w)) = error (store w)
  /\ currentUser (subscribeToCart w) = currentUser w
  /\ server (subscribeToCart w) = server w.
Proof.
  unfold subscribeToCart. destruct (currentUser w) eqn:Hu; [| done].
  by destruct (unsubscribe (store w)).
Qed.

(** X20.  [loadCart] without a signed-in user does nothing.  With one, it
    always ends with [loading] false.  When one of its two awaited calls is
    rejected it records the error and keeps the cart and the subscription
    as they were; when both resolve the cart is the document's items (the
    empty cart when the document has no items field, the previous cart when
    there is no document) and the recorded error is left as it was. *)
Theorem loadCart_settles svc w :
  (currentUser w = None -> loadCart svc w = w)
  /\ (forall uid,
        currentUser w = Some uid ->
        loading (store (loadCart svc w)) = false
        /\ match fst (loadCart_await svc uid (server w)) with
           | Throws msg =>
               error (store (loadCart svc w)) = Some msg
               /\ cart (store (loadCart svc w)) = cart (store w)
               /\ subscription_state (loadCart svc w) = subscription_state w
           | Returns d =>
               cart (store (loadCart svc w))
               = match d with
                 | Some its => default [] its
                 | None => cart (store w)
                 end
               /\ error (store (loadCart svc w)) = error (store w)
           end).
Proof.
  split.
  - intros Hu. unfold loadCart. by rewrite Hu.
  - intros uid Hu. unfold loadCart, loadCart_begin. rewrite Hu. simpl.
    destruct (loadCart_await svc uid (server w)) as [[d | msg] sv]; simpl.
    + set (w1 := match d with
                 | Some d0 => _
                 | None => _
                 end).
      destruct (subscribeToCart_store (subscribeToCart (subscribeToCart w1)))
        as (Hc3 & Hl3 & He3 & _).
      destruct (subscribeToCart_store (subscribeToCart w1)) as (Hc2 & Hl2 & He2 & _).
      destruct (subscribeToCart_store w1) as (Hc1 & Hl1 & He1 & _).
      rewrite Hc3, Hl3, He3, Hc2, Hl2, He2, Hc1, Hl1, He1.
      subst w1. by destruct d.
    + done.
Qed.

End CartStoreMore.

Section CartStoreMoreExamples.

Import CartStore CartScenarios.

Lemma addToCartLocal_ids_witness :
  NoDup (map id (cart (store (addToCartLocal shawl (1 # 1) basket)))).
Proof.
  apply (proj2 (addToCartLocal_ids basket shawl (1 # 1))).
  apply (bool_decide_unpack _). reflexivity.
Defined.

(** A shawl added to the basket of 340 and three items. *)
Lemma addToCartLocal_new_product_totals_witness :
  fst (getTotalPrice (addToCartLocal shawl (1 # 1) basket))
  = Returns (nadd (fold_left (fun total item =>
                                nadd total (nmul (price item) (quantity item)))
                             [pickle; honey] (lit (0 # 1)))
                  (nmul (450 # 1) (1 # 1))).
Proof.
  exact (proj1 (addToCartLocal_new_product_totals basket shawl (1 # 1) _ _
                  eq_refl eq_refl eq_refl)).
Defined.

(** Unsubscribing the subscribed basket cancels listener 0. *)
Lemma unsubscribeFromCart_leaves_none_live_witness :
  listeners (unsubscribeFromCart subscribed_basket) = ∅
  /\ log (unsubscribeFromCart subscribed_basket) = [Opened 0 "u1"; Cancelled 0].
Proof.
  assert (Hreach : reachable document_services subscribed_basket).
  { apply (reachable_perform document_services SubscribeToCart).
    apply reachable_initial. }
  destruct (unsubscribeFromCart_leaves_none_live document_services
              subscribed_basket Hreach) as (Hnone & _ & Hlog & _).
  split; [exact Hnone | exact Hlog].
Defined.

(** With the session check undefined, [loadCart] records the error and
    keeps the basket; with services that answer, the loading flag ends
    false. *)
Lemma loadCart_settles_witness :
  error (store (loadCart undefined_services basket))
  = Some "sessionValidationService.validateActiveSession is not a function"
  /\ cart (store (loadCart undefined_services basket)) = [pickle; honey]
  /\ loading (store (loadCart document_services basket)) = false.
Proof.
  destruct (proj2 (loadCart_settles undefined_services basket) "u1" eq_refl)
    as [_ (Herr & Hcart & _)].
  destruct (proj2 (loadCart_settles document_services basket) "u1" eq_refl)
    as [Hload _].
  split; [exact Herr |]. split; [exact Hcart | exact Hload].
Defined.

End CartStoreMoreExamples.
